(** * Antijection n8n node: the execution routine of [Antijection.node.ts]

    A shallow embedding of [Antijection.execute]: prompt validation, payload
    construction, the detection URL, the classification of caught errors and
    the per-item loop with its continue-on-failure branch.

    JavaScript strings are sequences of UTF-16 code units; they are modelled
    as lists of code units ([N]), so that [length], [trim] and [split] see
    exactly what the engine sees.  JavaScript numbers that occur here (string
    lengths, HTTP status codes, item indexes) are integers and are modelled
    as [Z] or [nat]. *)

From Stdlib Require Import List ZArith NArith String Ascii Bool Lia.
Import ListNotations.

Local Open Scope string_scope.
Local Open Scope list_scope.

(** ** JavaScript strings *)

Definition jsstring := list N.

(** A string literal of the source, as code units. *)
Definition lit (s : string) : jsstring :=
  map N_of_ascii (list_ascii_of_string s).

Definition code_eqb (a b : N) : bool := N.eqb a b.

Fixpoint jsstring_eqb (a b : jsstring) : bool :=
  match a, b with
  | [], [] => true
  | x :: a', y :: b' => code_eqb x y && jsstring_eqb a' b'
  | _, _ => false
  end.

(** [s.length] *)
Definition js_length (s : jsstring) : Z := Z.of_nat (List.length s).

(** ECMAScript WhiteSpace and LineTerminator code points, the ones
    [String.prototype.trim] removes. *)
Definition isWhiteSpace (c : N) : bool :=
  match c with
  | 9%N | 10%N | 11%N | 12%N | 13%N | 32%N | 160%N
  | 5760%N
  | 8192%N | 8193%N | 8194%N | 8195%N | 8196%N | 8197%N
  | 8198%N | 8199%N | 8200%N | 8201%N | 8202%N
  | 8232%N | 8233%N | 8239%N | 8287%N | 12288%N | 65279%N => true
  | _ => false
  end.

Fixpoint trimStart (s : jsstring) : jsstring :=
  match s with
  | [] => []
  | c :: r => if isWhiteSpace c then trimStart r else s
  end.

Definition trimEnd (s : jsstring) : jsstring := rev (trimStart (rev s)).

(** [s.trim()] *)
Definition trim (s : jsstring) : jsstring := trimEnd (trimStart s).

(** [s.split(sep)] for a one-code-unit separator: a string with [n]
    occurrences of the separator gives [n + 1] pieces. *)
Fixpoint split (sep : N) (s : jsstring) : list jsstring :=
  match s with
  | [] => [[]]
  | c :: r =>
      if code_eqb c sep then [] :: split sep r
      else match split sep r with
           | piece :: pieces => (c :: piece) :: pieces
           | [] => [[c]]
           end
  end.

(** [pieces.join(sep)], the inverse reading of [split]. *)
Fixpoint join (sep : N) (pieces : list jsstring) : jsstring :=
  match pieces with
  | [] => []
  | [p] => p
  | p :: rest => p ++ sep :: join sep rest
  end.

Definition LF : N := 10%N.
Definition SLASH : N := 47%N.

(** Decimal digits of a non-negative integer, most significant first. *)
Fixpoint uint_digits (d : Decimal.uint) : jsstring :=
  match d with
  | Decimal.Nil => []
  | Decimal.D0 d => 48%N :: uint_digits d
  | Decimal.D1 d => 49%N :: uint_digits d
  | Decimal.D2 d => 50%N :: uint_digits d
  | Decimal.D3 d => 51%N :: uint_digits d
  | Decimal.D4 d => 52%N :: uint_digits d
  | Decimal.D5 d => 53%N :: uint_digits d
  | Decimal.D6 d => 54%N :: uint_digits d
  | Decimal.D7 d => 55%N :: uint_digits d
  | Decimal.D8 d => 56%N :: uint_digits d
  | Decimal.D9 d => 57%N :: uint_digits d
  end.

(** [String(n)] / [`${n}`] for an integer [n]. *)
Definition number_to_string (n : Z) : jsstring :=
  match Z.to_int n with
  | Decimal.Pos d => uint_digits d
  | Decimal.Neg d => 45%N :: uint_digits d
  end.

(** [`${n}`] for a number that may be [undefined]. *)
Definition optional_number_to_string (n : option Z) : jsstring :=
  match n with
  | Some z => number_to_string z
  | None => lit "undefined"
  end.

Fixpoint startsWith (needle hay : jsstring) : bool :=
  match needle, hay with
  | [], _ => true
  | x :: needle', y :: hay' => code_eqb x y && startsWith needle' hay'
  | _ :: _, [] => false
  end.

(** [hay.includes(needle)] *)
Fixpoint includes (needle hay : jsstring) : bool :=
  startsWith needle hay ||
  match hay with
  | [] => false
  | _ :: hay' => includes needle hay'
  end.

(** JavaScript truthiness of the values [||] and [?:] are applied to. *)
Definition truthy_string (o : option jsstring) : bool :=
  match o with
  | Some (_ :: _) => true
  | _ => false
  end.

Definition truthy_number (o : option Z) : bool :=
  match o with
  | Some z => negb (Z.eqb z 0)
  | None => false
  end.

(** [a || b] on optional numbers: [0] and [undefined] are falsy. *)
Definition or_number (a b : option Z) : option Z :=
  if truthy_number a then a else b.

(** [a || b] on optional objects: every object is truthy. *)
Definition or_object {A : Type} (a b : option A) : option A :=
  match a with
  | Some _ => a
  | None => b
  end.

(** [a || b] on optional strings: the empty string and [undefined] are falsy. *)
Definition or_string (a b : option jsstring) : option jsstring :=
  if truthy_string a then a else b.

(** ** Data model *)

(** The values of the [detectionMethod] options of the node description. *)
Inductive DetectionMethod :=
  | INJECTION_GUARD
  | INJECTION_GUARD_MULTI
  | SAFETY_GUARD.

Definition method_value (m : DetectionMethod) : jsstring :=
  match m with
  | INJECTION_GUARD => lit "INJECTION_GUARD"
  | INJECTION_GUARD_MULTI => lit "INJECTION_GUARD_MULTI"
  | SAFETY_GUARD => lit "SAFETY_GUARD"
  end.

(** The [ruleSettings] collection as [getNodeParameter] hands it over: every
    sub-field may be absent. *)
Record RuleSettingsParameter := {
  enabled : option bool;
  disabledCategories : option (list jsstring);
  blockedKeywords : option jsstring
}.

(** The three node parameters read for one item; [ruleSettings] itself may
    be [undefined]. *)
Record NodeParameters := {
  prompt : jsstring;
  detectionMethod : jsstring;
  ruleSettings : option RuleSettingsParameter
}.

(** [payload.rule_settings] *)
Record RuleSettings := {
  rule_enabled : bool;
  disabled_categories : list jsstring;
  blocked_keywords : list jsstring
}.

(** [payload], the DetectionRequest sent to the service. *)
Record DetectionRequest := {
  payload_prompt : jsstring;
  detection_method : jsstring;
  rule_settings : option RuleSettings
}.

(** [options] of [this.helpers.httpRequest]. *)
Record RequestOptions := {
  method : jsstring;
  url : jsstring;
  body : DetectionRequest;
  json_flag : bool;
  headers : list (jsstring * jsstring)
}.

(** [e.response.body] / [e.response.data] *)
Record ResponseBody := {
  detail : option jsstring;
  error : option jsstring
}.

(** [e.response] *)
Record ErrorResponse := {
  status : option Z;
  response_body : option ResponseBody;
  response_data : option ResponseBody
}.

(** A caught error.  [itemIndex] is the context a [NodeOperationError]
    carries; errors raised by the HTTP helper have [response] and possibly
    [statusCode]. *)
Record JsError := {
  message : jsstring;
  response : option ErrorResponse;
  statusCode : option Z;
  itemIndex : option nat
}.

(** [new NodeOperationError(this.getNode(), msg, { itemIndex: i })], for a
    message the library keeps as it is, as it does the two validation
    messages of lines 199 and 207.  For the [throw] of line 328, whose
    message may be anything, see [loop_raising]. *)
Definition NodeOperationError (msg : jsstring) (i : nat) : JsError :=
  {| message := msg; response := None; statusCode := None;
     itemIndex := Some i |}.

(** Outcome of a block that may throw. *)
Inductive Completion (A : Type) :=
  | Normal (a : A)
  | Throw (e : JsError).
Arguments Normal {A} a.
Arguments Throw {A} e.

(** The object pushed in continue-on-failure mode. *)
Record ErrorRecord := {
  record_error : jsstring;
  record_details : jsstring;
  record_statusCode : option Z
}.

(** ** Payload construction (lines 195-238) *)

Definition empty_prompt_message : jsstring := lit "Prompt cannot be empty".

Definition too_long_message (len : Z) : jsstring :=
  lit "Prompt is too long (" ++ number_to_string len ++
  lit " characters). Maximum allowed is 10,000 characters.".

(** [!prompt || prompt.trim().length === 0] *)
Definition prompt_is_empty (p : jsstring) : bool :=
  negb (truthy_string (Some p)) || Z.eqb (js_length (trim p)) 0.

(** [prompt.length > 10000] *)
Definition prompt_is_too_long (p : jsstring) : bool :=
  Z.ltb 10000 (js_length p).

(** [ruleSettings.blockedKeywords ? ....split('\n').map(s => s.trim())
    .filter(s => s.length > 0) : []] *)
Definition blockedKeywords_list (field : option jsstring) : list jsstring :=
  match field with
  | Some s =>
      if truthy_string (Some s)
      then filter (fun s => Z.ltb 0 (js_length s)) (map trim (split LF s))
      else []
  | None => []
  end.

(** The object assigned to [payload.rule_settings]. *)
Definition build_rule_settings (rs : RuleSettingsParameter) : RuleSettings :=
  {| rule_enabled :=
       match enabled rs with
       | Some false => false
       | _ => true
       end;
     disabled_categories :=
       match disabledCategories rs with
       | Some cats => cats
       | None => []
       end;
     blocked_keywords := blockedKeywords_list (blockedKeywords rs) |}.

(** The part of the [try] block before the HTTP call, for item [i]. *)
Definition build_payload (i : nat) (p : NodeParameters)
  : Completion DetectionRequest :=
  if prompt_is_empty (prompt p) then
    Throw (NodeOperationError empty_prompt_message i)
  else if prompt_is_too_long (prompt p) then
    Throw (NodeOperationError (too_long_message (js_length (prompt p))) i)
  else
    Normal {| payload_prompt := prompt p;
              detection_method := detectionMethod p;
              rule_settings :=
                match ruleSettings p with
                | Some rs => Some (build_rule_settings rs)
                | None => None
                end |}.

(** ** Request URL (lines 182 and 240-249) *)

(** [s.replace(/\/$/, '')]: the first position, from the left, where a
    slash is followed by the end of the input is replaced by nothing. *)
Fixpoint replace_trailing_slash (s : jsstring) : jsstring :=
  match s with
  | [] => []
  | c :: r =>
      if code_eqb c SLASH && match r with [] => true | _ :: _ => false end
      then []
      else c :: replace_trailing_slash r
  end.

Record Credentials := {
  apiKey : jsstring;
  baseUrl : jsstring
}.

Definition detect_url (c : Credentials) : jsstring :=
  replace_trailing_slash (baseUrl c) ++ lit "/v1/detect".

Definition request_options (c : Credentials) (payload : DetectionRequest)
  : RequestOptions :=
  {| method := lit "POST";
     url := detect_url c;
     body := payload;
     json_flag := true;
     headers :=
       [ (lit "Authorization", lit "Bearer " ++ apiKey c);
         (lit "Content-Type", lit "application/json") ] |}.

(** ** Error classification (lines 276-311) *)

(** [e.response.status || e.statusCode] *)
Definition effective_status (e : JsError) (r : ErrorResponse) : option Z :=
  or_number (status r) (statusCode e).

(** [e.response.body || e.response.data] *)
Definition responseBody (r : ErrorResponse) : option ResponseBody :=
  or_object (response_body r) (response_data r).

(** [responseBody?.detail] and [responseBody?.error] *)
Definition optional_field (rb : option ResponseBody)
    (f : ResponseBody -> option jsstring) : option jsstring :=
  match rb with
  | Some b => f b
  | None => None
  end.

(** [responseBody?.detail || responseBody?.error || fallback] *)
Definition body_detail_or (rb : option ResponseBody) (fallback : jsstring)
  : jsstring :=
  match or_string (or_string (optional_field rb detail)
                             (optional_field rb error))
                  (Some fallback) with
  | Some s => s
  | None => []
  end.

Definition invalid_api_key_details : jsstring :=
  lit "Invalid API key. Please check your Antijection API credentials.".
Definition forbidden_details : jsstring :=
  lit "Your API key does not have permission to access this resource.".
Definition rate_limit_details : jsstring :=
  lit "You have exceeded your API rate limit or credit quota. Please upgrade your plan or wait before retrying.".
Definition malformed_details : jsstring :=
  lit "The request was malformed. Check your input parameters.".
Definition unavailable_details : jsstring :=
  lit "The Antijection service is temporarily unavailable. Please try again later.".

(** The [switch (statusCode)] of the [catch] block: the pair
    [(errorMessage, errorDetails)]. *)
Definition classify_status (e : JsError) (r : ErrorResponse)
  : jsstring * jsstring :=
  let code := effective_status e r in
  let rb := responseBody r in
  match code with
  | Some 401%Z => (lit "Authentication failed", invalid_api_key_details)
  | Some 403%Z => (lit "Access forbidden", forbidden_details)
  | Some 429%Z => (lit "Rate limit exceeded", rate_limit_details)
  | Some 400%Z => (lit "Invalid request", body_detail_or rb malformed_details)
  | Some 500%Z | Some 502%Z | Some 503%Z =>
      (lit "Antijection API error", unavailable_details)
  | _ =>
      (lit "HTTP " ++ optional_number_to_string code ++ lit " error",
       body_detail_or rb (message e))
  end.

(** [errorMessage] and [errorDetails] when the [if (e.response)] block is
    left. *)
Definition classify (e : JsError) : jsstring * jsstring :=
  match response e with
  | Some r => classify_status e r
  | None => (message e, [])
  end.

(** [e.response?.status || e.statusCode] *)
Definition reported_status (e : JsError) : option Z :=
  or_number
    match response e with
    | Some r => status r
    | None => None
    end
    (statusCode e).

Definition error_record (e : JsError) : ErrorRecord :=
  {| record_error := fst (classify e);
     record_details := snd (classify e);
     record_statusCode := reported_status e |}.

(** [errorDetails ? `${errorMessage}: ${errorDetails}` : errorMessage] *)
Definition fullError (e : JsError) : jsstring :=
  let (errorMessage, errorDetails) := classify e in
  if truthy_string (Some errorDetails)
  then errorMessage ++ lit ": " ++ errorDetails
  else errorMessage.

(** ** The item loop (lines 185-334) *)

Section Execute.

(** The remote service is outside the program: [World] is whatever state
    the HTTP helper reads and changes, [Response] the decoded JSON body of
    a successful call. *)
Variable World : Type.
Variable Response : Type.
Variable httpRequest :
  World -> RequestOptions -> Completion Response * World.

(** [json] of an output item: the decoded response or an [ErrorRecord]. *)
Inductive OutputJson :=
  | ResponseJson (r : Response)
  | ErrorJson (e : ErrorRecord).

Record INodeExecutionData := {
  json : OutputJson;
  pairedItem : nat
}.

(** The [try] block for item [i]: validation, then one HTTP call. *)
Definition try_item (c : Credentials) (w : World) (i : nat)
    (p : NodeParameters) : Completion Response * World :=
  match build_payload i p with
  | Throw e => (Throw e, w)
  | Normal payload => httpRequest w (request_options c payload)
  end.

(** [for (let i = ...; i < items.length; i++) { try ... catch ... }]
    from index [i] on, [items] being the items not yet visited and
    [returnData] the array built so far. *)
Fixpoint loop (continueOnFail : bool) (c : Credentials) (w : World)
    (i : nat) (items : list NodeParameters)
    (returnData : list INodeExecutionData)
    : Completion (list (list INodeExecutionData)) * World :=
  match items with
  | [] => (Normal [returnData], w)
  | p :: rest =>
      match try_item c w i p with
      | (Normal response, w') =>
          loop continueOnFail c w' (S i) rest
            (returnData ++
             [{| json := ResponseJson response; pairedItem := i |}])
      | (Throw e, w') =>
          if continueOnFail then
            loop continueOnFail c w' (S i) rest
              (returnData ++
               [{| json := ErrorJson (error_record e); pairedItem := i |}])
          else
            (Throw (NodeOperationError (fullError e) i), w')
      end
  end.

Definition execute (continueOnFail : bool) (c : Credentials) (w : World)
    (items : list NodeParameters)
    : Completion (list (list INodeExecutionData)) * World :=
  loop continueOnFail c w 0 items [].

(** What the [try] block of each item does when every item is visited in
    order, the world being threaded from one call to the next. *)
Fixpoint item_outcomes (c : Credentials) (w : World) (i : nat)
    (items : list NodeParameters) : list (Completion Response) :=
  match items with
  | [] => []
  | p :: rest =>
      let (o, w') := try_item c w i p in
      o :: item_outcomes c w' (S i) rest
  end.

(** The world after the items were visited in order. *)
Fixpoint world_after (c : Credentials) (w : World) (i : nat)
    (items : list NodeParameters) : World :=
  match items with
  | [] => w
  | p :: rest => world_after c (snd (try_item c w i p)) (S i) rest
  end.

(** The output item of index [i] for an outcome, in continue-on-failure
    mode. *)
Definition output_item (i : nat) (o : Completion Response)
  : INodeExecutionData :=
  match o with
  | Normal r => {| json := ResponseJson r; pairedItem := i |}
  | Throw e => {| json := ErrorJson (error_record e); pairedItem := i |}
  end.

Fixpoint outputs_from (i : nat) (os : list (Completion Response))
  : list INodeExecutionData :=
  match os with
  | [] => []
  | o :: rest => output_item i o :: outputs_from (S i) rest
  end.

End Execute.

Arguments ResponseJson {Response} r.
Arguments ErrorJson {Response} e.
Arguments Build_INodeExecutionData {Response} json pairedItem.
Arguments json {Response} i.
Arguments pairedItem {Response} i.
Arguments try_item {World Response} httpRequest c w i p.
Arguments loop {World Response} httpRequest continueOnFail c w i items
  returnData.
Arguments execute {World Response} httpRequest continueOnFail c w items.
Arguments item_outcomes {World Response} httpRequest c w i items.
Arguments world_after {World Response} httpRequest c w i items.
Arguments output_item {Response} i o.
Arguments outputs_from {Response} i os.

(** ** The item loop, with the error class left to the library *)

Section ExecuteRaising.

Variable World : Type.
Variable Response : Type.
Variable httpRequest :
  World -> RequestOptions -> Completion Response * World.

(** The class [NodeOperationError] belongs to n8n-workflow, not to this
    repository.  [raise msg i] stands for the object that
    [new NodeOperationError(this.getNode(), msg, { itemIndex: i })] of line
    328 builds from the message and the index it is given, whatever the
    library makes of them. *)
Variable OperationError : Type.
Variable raise : jsstring -> nat -> OperationError.

(** How a run ends: [return [returnData]] or the [throw] of line 328. *)
Inductive RunResult :=
  | Returned (data : list (list (INodeExecutionData Response)))
  | Raised (err : OperationError).

(** The loop of lines 185-332 again, the error leaving the function being
    the library's object for [fullError] and [i]. *)
Fixpoint loop_raising (continueOnFail : bool) (c : Credentials) (w : World)
    (i : nat) (items : list NodeParameters)
    (returnData : list (INodeExecutionData Response))
    : RunResult * World :=
  match items with
  | [] => (Returned [returnData], w)
  | p :: rest =>
      match try_item httpRequest c w i p with
      | (Normal response, w') =>
          loop_raising continueOnFail c w' (S i) rest
            (returnData ++
             [{| json := ResponseJson response; pairedItem := i |}])
      | (Throw e, w') =>
          if continueOnFail then
            loop_raising continueOnFail c w' (S i) rest
              (returnData ++
               [{| json := ErrorJson (error_record e); pairedItem := i |}])
          else
            (Raised (raise (fullError e) i), w')
      end
  end.

Definition execute_raising (continueOnFail : bool) (c : Credentials)
    (w : World) (items : list NodeParameters) : RunResult * World :=
  loop_raising continueOnFail c w 0 items [].

End ExecuteRaising.

Arguments Returned {Response OperationError} data.
Arguments Raised {Response OperationError} err.
Arguments loop_raising {World Response} httpRequest {OperationError} raise
  continueOnFail c w i items returnData.
Arguments execute_raising {World Response} httpRequest {OperationError} raise
  continueOnFail c w items.

(** A [Completion] read as a [RunResult], the error being raised as it is. *)
Definition as_run_result {Response : Type}
    (r : Completion (list (list (INodeExecutionData Response))))
  : RunResult Response JsError :=
  match r with
  | Normal data => Returned data
  | Throw e => Raised e
  end.

(** ** Reference readings used in the statements *)

(** A prompt is blank when every code unit is white space (the empty prompt
    included). *)
Definition whitespace_only (s : jsstring) : bool := forallb isWhiteSpace s.

(** [pieces] is the newline split of [s]: joining the pieces with newlines
    gives [s] back and no piece contains a newline. *)
Definition is_newline_split (s : jsstring) (pieces : list jsstring) : Prop :=
  pieces <> [] /\
  join LF pieces = s /\
  Forall (fun p => ~ In LF p) pieces.

(** The blocked keywords as the specification words them: split on
    newlines, trim each line, drop the lines that are empty after trimming. *)
Definition keywords_of_lines (pieces : list jsstring) : list jsstring :=
  filter (fun l => negb (jsstring_eqb l [])) (map trim pieces).

Definition ends_with_slash (s : jsstring) : bool :=
  match rev s with
  | c :: _ => code_eqb c SLASH
  | [] => false
  end.

(** [s] with at most one trailing slash removed. *)
Definition without_one_trailing_slash (s : jsstring) : jsstring :=
  if ends_with_slash s then removelast s else s.

(** [n] copies of one code unit; used to write long prompts down. *)
Definition repeat_code (c : N) (n : N) : jsstring := N.iter n (cons c) [].

(** ** Sample inputs *)

(** 10001 letters [a]. *)
Definition long_item : NodeParameters :=
  {| prompt := repeat_code 97 10001;
     detectionMethod := method_value INJECTION_GUARD_MULTI;
     ruleSettings := None |}.

(** 10001 spaces. *)
Definition long_blank_item : NodeParameters :=
  {| prompt := repeat_code 32 10001;
     detectionMethod := method_value INJECTION_GUARD;
     ruleSettings := None |}.

(** One space. *)
Definition one_space_item : NodeParameters :=
  {| prompt := [32%N];
     detectionMethod := method_value INJECTION_GUARD;
     ruleSettings := None |}.

(** Space, tab, newline, no-break space, hair space, byte order mark. *)
Definition blank_item : NodeParameters :=
  {| prompt := [32; 9; 10; 160; 8202; 65279]%N;
     detectionMethod := method_value SAFETY_GUARD;
     ruleSettings := None |}.

(** The collection with every sub-field absent (the parameter's default). *)
Definition default_settings : RuleSettingsParameter :=
  {| enabled := None; disabledCategories := None; blockedKeywords := None |}.

Definition default_settings_item : NodeParameters :=
  {| prompt := lit "hello";
     detectionMethod := method_value INJECTION_GUARD_MULTI;
     ruleSettings := Some default_settings |}.

(** The default of the credential's Base URL field. *)
Definition default_baseUrl : jsstring := lit "https://api.antijection.com".

(** An error of the HTTP helper for a response with the given status. *)
Definition http_error (code : Z) (b : option ResponseBody) : JsError :=
  {| message := lit "Request failed with status code";
     response := Some {| status := Some code; response_body := None;
                         response_data := b |};
     statusCode := None;
     itemIndex := None |}.

(** A service that counts the calls made to it, answers 401 to the prompt
    "boom" and echoes every other prompt. *)
Definition counting_service (calls : nat) (o : RequestOptions)
  : Completion jsstring * nat :=
  if jsstring_eqb (payload_prompt (body o)) (lit "boom")
  then (Throw (http_error 401 None), S calls)
  else (Normal (payload_prompt (body o)), S calls).

Definition sample_credentials : Credentials :=
  {| apiKey := lit "secret"; baseUrl := default_baseUrl |}.

Definition item_of (text : jsstring) : NodeParameters :=
  {| prompt := text;
     detectionMethod := method_value INJECTION_GUARD;
     ruleSettings := None |}.

Definition sample_items : list NodeParameters :=
  [item_of (lit "one"); item_of (lit "boom"); item_of (lit "three")].

Definition sample_items_blank : list NodeParameters :=
  [item_of (lit "one"); item_of (lit "  "); item_of (lit "three")].

(** A 400 response whose body has an empty [detail] and an [error]. *)
Definition bad_request_response : ErrorResponse :=
  {| status := Some 400%Z;
     response_body :=
       Some {| detail := Some []; error := Some (lit "bad input") |};
     response_data := None |}.

Definition bad_request_error : JsError :=
  {| message := lit "Request failed with status code 400";
     response := Some bad_request_response;
     statusCode := None;
     itemIndex := None |}.

(** ** Notions used to state further properties *)

(** The prompts the two guards of lines 196 and 204 let through. *)
Definition prompt_accepted (text : jsstring) : bool :=
  negb (whitespace_only text) && Z.leb (js_length text) 10000.

(** The payloads of the items that pass validation, in item order; [i] is
    the index of the first item. *)
Fixpoint valid_payloads (i : nat) (items : list NodeParameters)
  : list DetectionRequest :=
  match items with
  | [] => []
  | p :: rest =>
      match build_payload i p with
      | Normal payload => payload :: valid_payloads (S i) rest
      | Throw _ => valid_payloads (S i) rest
      end
  end.

(** The world after one HTTP call per payload, in order. *)
Definition calls {World Response : Type}
    (httpRequest : World -> RequestOptions -> Completion Response * World)
    (c : Credentials) (w : World) (payloads : list DetectionRequest)
  : World :=
  fold_left (fun w payload => snd (httpRequest w (request_options c payload)))
            payloads w.

(** An outcome of a [try] block that did not throw. *)
Definition is_normal {A : Type} (o : Completion A) : bool :=
  match o with
  | Normal _ => true
  | Throw _ => false
  end.

(** A keyword as the service receives it: not empty, no white space at
    either end, no newline inside. *)
Definition is_clean_keyword (k : jsstring) : bool :=
  match k with
  | [] => false
  | c :: _ => negb (isWhiteSpace c)
  end &&
  match rev k with
  | [] => false
  | c :: _ => negb (isWhiteSpace c)
  end &&
  negb (existsb (code_eqb LF) k).

(** The statuses the [switch] has a [case] for. *)
Definition listed_statuses : list Z :=
  [401; 403; 429; 400; 500; 502; 503]%Z.

(** ** The declared options and the credential test *)

(** [value] of each option of the [detectionMethod] property, in order. *)
Definition detectionMethod_options : list jsstring :=
  [lit "INJECTION_GUARD"; lit "INJECTION_GUARD_MULTI"; lit "SAFETY_GUARD"].

(** [default] of the [detectionMethod] property. *)
Definition detectionMethod_default : jsstring := lit "INJECTION_GUARD_MULTI".

(** [value] of each option of [disabledCategories], in order. *)
Definition disabledCategories_options : list jsstring :=
  [lit "command_injection"; lit "emojis"; lit "encoded_attacks";
   lit "fuzzy_matches"; lit "ignore_instructions"; lit "many_shot";
   lit "path_traversal"; lit "prompt_extraction"; lit "repetition_attacks";
   lit "role_hijacking"; lit "sql_injection"; lit "system_override";
   lit "unusual_punctuation"; lit "xss_patterns"].

(** No value occurs twice in the list. *)
Fixpoint distinct_values (l : list jsstring) : bool :=
  match l with
  | [] => true
  | x :: rest => negb (existsb (jsstring_eqb x) rest) && distinct_values rest
  end.

(** [test.request.body] of the credential type. *)
Definition credential_test_body : DetectionRequest :=
  {| payload_prompt := lit "health check";
     detection_method := lit "INJECTION_GUARD";
     rule_settings := None |}.

(** ** More sample inputs *)

(** A field with blank lines, padded keywords and a carriage return. *)
Definition sample_keywords_field : jsstring :=
  lit "  secret " ++ [LF; 13%N; LF; 9%N] ++ lit "api key" ++ [13%N; LF].

(** A response without a status on an error that has its own. *)
Definition statusless_response : ErrorResponse :=
  {| status := None; response_body := None; response_data := None |}.

Definition statusless_error : JsError :=
  {| message := lit "socket hang up";
     response := Some statusless_response;
     statusCode := Some 401%Z;
     itemIndex := None |}.

(** A 418 response with a body that has only an [error] field. *)
Definition teapot_response : ErrorResponse :=
  {| status := Some 418%Z;
     response_body := None;
     response_data := Some {| detail := None; error := Some (lit "teapot") |} |}.

Definition teapot_error : JsError :=
  {| message := lit "Request failed with status code 418";
     response := Some teapot_response;
     statusCode := None;
     itemIndex := None |}.

Definition forbidden_response : ErrorResponse :=
  {| status := Some 403%Z;
     response_body := Some {| detail := Some (lit "no"); error := None |};
     response_data := None |}.

Definition forbidden_error : JsError :=
  {| message := lit "Request failed with status code 403";
     response := Some forbidden_response;
     statusCode := None;
     itemIndex := None |}.

Definition sample_items_valid : list NodeParameters :=
  [item_of (lit "one"); item_of (lit "two")].

(** Two keywords of the field's placeholder, one per line. *)
Definition placeholder_settings : RuleSettingsParameter :=
  {| enabled := None;
     disabledCategories := None;
     blockedKeywords :=
       Some (lit "internal_project_name" ++ [LF] ++ lit "<special_token>") |}.

(** ** Facts about the string primitives *)

Example trim_example : trim (lit " b  ") = lit "b".
Proof. reflexivity. Qed.

Example split_example :
  split LF (LF :: lit "x" ++ [LF]) = [ []; lit "x"; [] ].
Proof. reflexivity. Qed.

Example number_to_string_example : number_to_string 10001 = lit "10001".
Proof. reflexivity. Qed.

Example includes_example :
  includes (lit "10,000") (too_long_message 10001) = true.
Proof. reflexivity. Qed.

Lemma js_length_zero (s : jsstring) : Z.eqb (js_length s) 0 = true <-> s = [].
Proof.
  unfold js_length. destruct s as [|c r]; simpl.
  - split; reflexivity.
  - split; discriminate.
Qed.

Lemma trimStart_blank (s : jsstring) :
  trimStart s = [] <-> whitespace_only s = true.
Proof.
  induction s as [|c r IH]; simpl.
  - split; reflexivity.
  - destruct (isWhiteSpace c) eqn:Hc; simpl.
    + exact IH.
    + split; discriminate.
Qed.

Lemma trimStart_head (s : jsstring) (c : N) (r : jsstring) :
  trimStart s = c :: r -> isWhiteSpace c = false.
Proof.
  induction s as [|d t IH]; simpl; [discriminate|].
  destruct (isWhiteSpace d) eqn:Hd; [exact IH|].
  intro H. injection H as -> _. exact Hd.
Qed.

Lemma whitespace_only_rev (s : jsstring) :
  whitespace_only (rev s) = whitespace_only s.
Proof.
  unfold whitespace_only. induction s as [|c r IH]; simpl; [reflexivity|].
  rewrite forallb_app, IH. simpl. rewrite andb_true_r. apply andb_comm.
Qed.

Lemma trim_blank (s : jsstring) : trim s = [] <-> whitespace_only s = true.
Proof.
  unfold trim, trimEnd. split.
  - intro H.
    assert (H1 : trimStart (rev (trimStart s)) = []).
    { destruct (trimStart (rev (trimStart s))) as [|x l]; [reflexivity|].
      simpl in H. destruct (rev l); discriminate. }
    apply trimStart_blank in H1. rewrite whitespace_only_rev in H1.
    destruct (trimStart s) as [|c r] eqn:Hs.
    + apply trimStart_blank. exact Hs.
    + apply trimStart_head in Hs. simpl in H1. rewrite Hs in H1. discriminate.
  - intro H. apply trimStart_blank in H. rewrite H. reflexivity.
Qed.

Lemma prompt_is_empty_blank (p : jsstring) :
  prompt_is_empty p = whitespace_only p.
Proof.
  unfold prompt_is_empty.
  destruct (whitespace_only p) eqn:Hw.
  - apply trim_blank in Hw. rewrite Hw. apply orb_true_r.
  - destruct p as [|c r]; [discriminate|]. simpl.
    destruct (Z.eqb (js_length (trim (c :: r))) 0) eqn:Hz; [|reflexivity].
    apply js_length_zero, trim_blank in Hz. congruence.
Qed.

Lemma code_eqb_refl (c : N) : code_eqb c c = true.
Proof. apply N.eqb_refl. Qed.

Lemma startsWith_app (x rest : jsstring) : startsWith x (x ++ rest) = true.
Proof.
  induction x as [|c x IH]; simpl; [reflexivity|].
  now rewrite code_eqb_refl, IH.
Qed.

Lemma includes_startsWith (x y : jsstring) :
  startsWith x y = true -> includes x y = true.
Proof. intro H. destruct y; simpl; rewrite H; reflexivity. Qed.

Lemma includes_infix (x before rest : jsstring) :
  includes x (before ++ x ++ rest) = true.
Proof.
  induction before as [|c b IH].
  - cbn [app]. apply includes_startsWith, startsWith_app.
  - simpl. rewrite IH. apply orb_true_r.
Qed.

Lemma split_not_nil (sep : N) (s : jsstring) : split sep s <> [].
Proof.
  destruct s as [|c r]; simpl; [discriminate|].
  destruct (code_eqb c sep); [discriminate|].
  destruct (split sep r); discriminate.
Qed.

Lemma join_split (sep : N) (s : jsstring) : join sep (split sep s) = s.
Proof.
  induction s as [|c r IH]; simpl; [reflexivity|].
  destruct (code_eqb c sep) eqn:Hc.
  - apply N.eqb_eq in Hc. subst c.
    destruct (split sep r) as [|p ps] eqn:E.
    + now apply split_not_nil in E.
    + simpl in *. now rewrite IH.
  - destruct (split sep r) as [|p ps] eqn:E.
    + now apply split_not_nil in E.
    + simpl in *. destruct ps; simpl in *; now rewrite <- IH.
Qed.

Lemma split_pieces (sep : N) (s : jsstring) :
  Forall (fun p => ~ In sep p) (split sep s).
Proof.
  induction s as [|c r IH]; simpl.
  - constructor; [intros []|constructor].
  - destruct (code_eqb c sep) eqn:Hc.
    + constructor; [intros []|exact IH].
    + apply N.eqb_neq in Hc.
      destruct (split sep r) as [|p ps].
      * constructor; [|constructor]. intros [H|[]]. congruence.
      * inversion IH as [|? ? Hp Hps]; subst. constructor; [|exact Hps].
        intros [H|H]; [congruence|exact (Hp H)].
Qed.

Lemma split_is_newline_split (s : jsstring) : is_newline_split s (split LF s).
Proof.
  repeat split.
  - apply split_not_nil.
  - apply join_split.
  - apply split_pieces.
Qed.

(** The pieces of a string are determined by the two properties of
    [is_newline_split]. *)
Lemma newline_split_unique (s : jsstring) (pieces : list jsstring) :
  is_newline_split s pieces -> pieces = split LF s.
Proof.
  intros (Hne & Hjoin & Hall). subst s.
  induction pieces as [|p ps IH]; [congruence|].
  inversion Hall as [|? ? Hp Hps]; subst.
  destruct ps as [|q qs].
  - clear IH Hne Hall Hps. simpl.
    induction p as [|c r IHr]; simpl; [reflexivity|].
    destruct (code_eqb c LF) eqn:Hc.
    + apply N.eqb_eq in Hc. exfalso. apply Hp. now left.
    + rewrite <- IHr; [reflexivity|]. intro H. apply Hp. now right.
  - assert (IH' : q :: qs = split LF (join LF (q :: qs))).
    { apply IH; [discriminate|exact Hps]. }
    clear IH Hne Hall Hps.
    change (join LF (p :: q :: qs)) with (p ++ LF :: join LF (q :: qs)).
    rewrite IH' at 1. generalize (join LF (q :: qs)) as t. intro t.
    induction p as [|c r IHr]; simpl.
    + reflexivity.
    + destruct (code_eqb c LF) eqn:Hc.
      * apply N.eqb_eq in Hc. exfalso. apply Hp. now left.
      * rewrite <- IHr; [reflexivity|]. intro H. apply Hp. now right.
Qed.

Lemma filter_nonempty_agree (l : list jsstring) :
  filter (fun s => Z.ltb 0 (js_length s)) l =
  filter (fun s => negb (jsstring_eqb s [])) l.
Proof.
  apply filter_ext. intros [|c r]; simpl; [reflexivity|].
  unfold js_length. simpl. apply Z.ltb_lt. lia.
Qed.

Lemma replace_trailing_slash_snoc (s : jsstring) (c : N) :
  replace_trailing_slash (s ++ [c]) =
  if code_eqb c SLASH then s else s ++ [c].
Proof.
  induction s as [|d t IH]; simpl.
  - rewrite andb_true_r. now destruct (code_eqb c SLASH).
  - destruct (t ++ [c]) as [|x l] eqn:E.
    + now destruct t.
    + rewrite andb_false_r, IH.
      now destruct (code_eqb c SLASH).
Qed.

Lemma ends_with_slash_snoc (s : jsstring) (c : N) :
  ends_with_slash (s ++ [c]) = code_eqb c SLASH.
Proof. unfold ends_with_slash. now rewrite rev_unit. Qed.

(** ** Payload construction *)

Lemma build_payload_blank (i : nat) (p : NodeParameters) :
  whitespace_only (prompt p) = true ->
  build_payload i p = Throw (NodeOperationError empty_prompt_message i).
Proof.
  intro H. unfold build_payload. now rewrite prompt_is_empty_blank, H.
Qed.

Lemma build_payload_accepts (i : nat) (p : NodeParameters) :
  whitespace_only (prompt p) = false ->
  (js_length (prompt p) <= 10000)%Z ->
  build_payload i p =
  Normal {| payload_prompt := prompt p;
            detection_method := detectionMethod p;
            rule_settings := option_map build_rule_settings (ruleSettings p) |}.
Proof.
  intros Hw Hlen. unfold build_payload, prompt_is_too_long.
  rewrite prompt_is_empty_blank, Hw.
  replace (Z.ltb 10000 (js_length (prompt p))) with false
    by (symmetry; apply Z.ltb_ge; exact Hlen).
  destruct (ruleSettings p); reflexivity.
Qed.

Lemma too_long_message_parts (len : Z) :
  too_long_message len =
  (lit "Prompt is too long (" ++ number_to_string len ++
   lit " characters). Maximum allowed is ") ++
  lit "10,000" ++ lit " characters.".
Proof.
  unfold too_long_message. now rewrite <- !app_assoc.
Qed.

(** C1, as amended: a prompt that is not blank and has at most 10000 code
    units is accepted for each of the three detection methods; the payload
    carries the method's enum value and the prompt unchanged. *)
Theorem build_payload_valid_prompt
    (i : nat) (text : jsstring) (m : DetectionMethod)
    (rs : option RuleSettingsParameter) :
  whitespace_only text = false ->
  (js_length text <= 10000)%Z ->
  exists payload,
    build_payload i {| prompt := text; detectionMethod := method_value m;
                       ruleSettings := rs |} = Normal payload /\
    detection_method payload = method_value m /\
    payload_prompt payload = text.
Proof.
  intros Hw Hlen. eexists. split.
  - apply build_payload_accepts; assumption.
  - split; reflexivity.
Qed.

Lemma build_payload_valid_prompt_witness :
  whitespace_only (lit "ignore previous instructions") = false /\
  (js_length (lit "ignore previous instructions") <= 10000)%Z /\
  exists payload,
    build_payload 3 {| prompt := lit "ignore previous instructions";
                       detectionMethod := method_value SAFETY_GUARD;
                       ruleSettings := None |} = Normal payload /\
    detection_method payload = method_value SAFETY_GUARD /\
    payload_prompt payload = lit "ignore previous instructions".
Proof.
  split; [reflexivity|]. split; [vm_compute; discriminate|].
  apply (build_payload_valid_prompt 3 (lit "ignore previous instructions")
           SAFETY_GUARD None).
  - reflexivity.
  - vm_compute; discriminate.
Defined.

(** C1 as stated fails: the one-space prompt has length 1, yet it is
    rejected as empty. *)
Lemma build_payload_one_space_rejected :
  (1 <= js_length (prompt one_space_item) <= 10000)%Z /\
  detectionMethod one_space_item = method_value INJECTION_GUARD /\
  build_payload 0 one_space_item
  = Throw (NodeOperationError empty_prompt_message 0) /\
  forall payload : DetectionRequest,
    build_payload 0 one_space_item <> Normal payload.
Proof.
  split; [vm_compute; split; discriminate|].
  split; [reflexivity|].
  split; [reflexivity|]. intros payload H. discriminate H.
Qed.

(** C5, as amended: a prompt that is not blank and has more than 10000 code
    units is rejected with a message that contains its exact length in
    decimal and the text "10,000"; at length 10001 the message contains
    "10001". *)
Theorem build_payload_too_long (i : nat) (p : NodeParameters) :
  whitespace_only (prompt p) = false ->
  (10000 < js_length (prompt p))%Z ->
  exists msg,
    build_payload i p = Throw (NodeOperationError msg i) /\
    includes (number_to_string (js_length (prompt p))) msg = true /\
    includes (lit "10,000") msg = true /\
    (js_length (prompt p) = 10001%Z -> includes (lit "10001") msg = true).
Proof.
  intros Hw Hlen. exists (too_long_message (js_length (prompt p))).
  assert (Hcount : includes (number_to_string (js_length (prompt p)))
                     (too_long_message (js_length (prompt p))) = true)
    by apply includes_infix.
  split; [|split; [exact Hcount|split]].
  - unfold build_payload, prompt_is_too_long.
    rewrite prompt_is_empty_blank, Hw.
    now replace (Z.ltb 10000 (js_length (prompt p))) with true
      by (symmetry; apply Z.ltb_lt; exact Hlen).
  - rewrite too_long_message_parts. apply includes_infix.
  - intro E. rewrite E in *. exact Hcount.
Qed.

Lemma build_payload_too_long_witness :
  exists msg,
    build_payload 0 long_item = Throw (NodeOperationError msg 0) /\
    includes (number_to_string (js_length (prompt long_item))) msg = true /\
    includes (lit "10,000") msg = true /\
    (js_length (prompt long_item) = 10001%Z ->
     includes (lit "10001") msg = true).
Proof.
  apply (build_payload_too_long 0 long_item); vm_compute; reflexivity.
Defined.

(** C5 as stated fails: 10001 spaces are longer than 10000 code units, yet
    the message is the emptiness one, which contains neither "10001" nor
    "10,000". *)
Lemma build_payload_long_blank_prompt :
  js_length (prompt long_blank_item) = 10001%Z /\
  build_payload 0 long_blank_item
  = Throw (NodeOperationError empty_prompt_message 0) /\
  includes (lit "10001") empty_prompt_message = false /\
  includes (lit "10,000") empty_prompt_message = false.
Proof.
  repeat split; vm_compute; reflexivity.
Qed.

(** C6: an empty or white-space-only prompt is rejected with a validation
    error ("Prompt cannot be empty") that carries the index of the item
    being processed. *)
Theorem build_payload_blank_prompt (i : nat) (p : NodeParameters) :
  whitespace_only (prompt p) = true ->
  exists e,
    build_payload i p = Throw e /\
    message e = empty_prompt_message /\
    response e = None /\
    itemIndex e = Some i.
Proof.
  intro H. exists (NodeOperationError empty_prompt_message i).
  split; [now apply build_payload_blank|]. repeat split.
Qed.

Lemma build_payload_blank_prompt_witness :
  exists e,
    build_payload 7 blank_item = Throw e /\
    message e = empty_prompt_message /\
    response e = None /\
    itemIndex e = Some 7.
Proof.
  apply (build_payload_blank_prompt 7 blank_item). reflexivity.
Defined.

(** C9: for a white-space-only prompt the error is the emptiness error, also
    when the prompt is longer than 10000 code units; its message is never a
    length-limit message. *)
Theorem blank_prompt_never_too_long (i : nat) (p : NodeParameters) :
  whitespace_only (prompt p) = true ->
  build_payload i p = Throw (NodeOperationError empty_prompt_message i) /\
  forall e len,
    build_payload i p = Throw e -> message e <> too_long_message len.
Proof.
  intro H. split; [now apply build_payload_blank|].
  intros e len He. rewrite (build_payload_blank i p H) in He.
  injection He as <-. cbn [message NodeOperationError].
  intro E.
  assert (Hs : startsWith (lit "Prompt i") (too_long_message len) = true).
  { unfold too_long_message.
    change (lit "Prompt is too long (")
      with (lit "Prompt i" ++ lit "s too long (").
    rewrite <- app_assoc. apply startsWith_app. }
  rewrite <- E in Hs. vm_compute in Hs. discriminate Hs.
Qed.

Lemma blank_prompt_never_too_long_witness :
  (10000 < js_length (prompt long_blank_item))%Z /\
  build_payload 2 long_blank_item
  = Throw (NodeOperationError empty_prompt_message 2) /\
  forall e len,
    build_payload 2 long_blank_item = Throw e ->
    message e <> too_long_message len.
Proof.
  split; [vm_compute; reflexivity|].
  apply (blank_prompt_never_too_long 2 long_blank_item).
  vm_compute. reflexivity.
Defined.

(** ** Rule settings *)

Lemma blockedKeywords_list_lines (s : jsstring) :
  blockedKeywords_list (Some s) = keywords_of_lines (split LF s).
Proof.
  unfold blockedKeywords_list, keywords_of_lines.
  destruct s as [|c r]; [reflexivity|].
  cbn [truthy_string]. apply filter_nonempty_agree.
Qed.

(** C7: for every [blockedKeywords] string the list sent as
    [blocked_keywords] is obtained by splitting the string on newlines,
    trimming each line and dropping the lines that are empty after trimming,
    in order; the pieces are the unique newline split of the string.  The
    input a, newline, newline, b, space, newline gives [a; b]. *)
Theorem blocked_keywords_from_lines :
  (forall rs : RuleSettingsParameter,
     blocked_keywords (build_rule_settings rs) =
     match blockedKeywords rs with
     | Some s => blockedKeywords_list (Some s)
     | None => []
     end) /\
  (forall s : jsstring,
     exists pieces,
       is_newline_split s pieces /\
       (forall other, is_newline_split s other -> other = pieces) /\
       blockedKeywords_list (Some s) = keywords_of_lines pieces) /\
  blocked_keywords
    (build_rule_settings
       {| enabled := None; disabledCategories := None;
          blockedKeywords :=
            Some (lit "a" ++ [LF; LF] ++ lit "b " ++ [LF]) |})
  = [lit "a"; lit "b"].
Proof.
  split; [|split].
  - intro rs. cbn [build_rule_settings blocked_keywords].
    now destruct (blockedKeywords rs).
  - intro s. exists (split LF s). split; [|split].
    + apply split_is_newline_split.
    + apply newline_split_unique.
    + apply blockedKeywords_list_lines.
  - reflexivity.
Qed.

(** C8: when the rule-settings collection is present, an accepted item's
    payload has [rule_settings]; [enabled] is [false] exactly when the input
    field is explicitly [false] and [true] otherwise, and
    [disabled_categories] is the input list, or empty when absent.  With
    every sub-field absent the object is [{true, [], []}]. *)
Theorem rule_settings_included
    (i : nat) (p : NodeParameters) (rs : RuleSettingsParameter) :
  ruleSettings p = Some rs ->
  whitespace_only (prompt p) = false ->
  (js_length (prompt p) <= 10000)%Z ->
  exists payload rule,
    build_payload i p = Normal payload /\
    rule_settings payload = Some rule /\
    (enabled rs = Some false -> rule_enabled rule = false) /\
    (enabled rs <> Some false -> rule_enabled rule = true) /\
    (forall cats, disabledCategories rs = Some cats ->
                  disabled_categories rule = cats) /\
    (disabledCategories rs = None -> disabled_categories rule = []) /\
    (rs = {| enabled := None; disabledCategories := None;
             blockedKeywords := None |} ->
     rule = {| rule_enabled := true; disabled_categories := [];
               blocked_keywords := [] |}).
Proof.
  intros Hrs Hw Hlen.
  exists {| payload_prompt := prompt p;
            detection_method := detectionMethod p;
            rule_settings := Some (build_rule_settings rs) |}.
  exists (build_rule_settings rs).
  split.
  { rewrite (build_payload_accepts i p Hw Hlen), Hrs. reflexivity. }
  split; [reflexivity|].
  unfold build_rule_settings. cbn [rule_enabled disabled_categories].
  repeat split.
  - now intros ->.
  - destruct (enabled rs) as [[|]|]; congruence.
  - now intros cats ->.
  - now intros ->.
  - now intros ->.
Qed.

Lemma rule_settings_included_witness :
  exists payload rule,
    build_payload 0 default_settings_item = Normal payload /\
    rule_settings payload = Some rule /\
    (enabled default_settings = Some false -> rule_enabled rule = false) /\
    (enabled default_settings <> Some false -> rule_enabled rule = true) /\
    (forall cats, disabledCategories default_settings = Some cats ->
                  disabled_categories rule = cats) /\
    (disabledCategories default_settings = None ->
     disabled_categories rule = []) /\
    (default_settings = {| enabled := None; disabledCategories := None;
                           blockedKeywords := None |} ->
     rule = {| rule_enabled := true; disabled_categories := [];
               blocked_keywords := [] |}).
Proof.
  apply (rule_settings_included 0 default_settings_item default_settings).
  - reflexivity.
  - reflexivity.
  - vm_compute; discriminate.
Defined.

Example rule_settings_explicit_false :
  build_rule_settings
    {| enabled := Some false;
       disabledCategories := Some [lit "sql_injection"];
       blockedKeywords := None |}
  = {| rule_enabled := false;
       disabled_categories := [lit "sql_injection"];
       blocked_keywords := [] |}.
Proof. reflexivity. Qed.

(** ** Request URL *)

Lemma replace_trailing_slash_spec (s : jsstring) :
  replace_trailing_slash s = without_one_trailing_slash s.
Proof.
  unfold without_one_trailing_slash.
  destruct s as [|c r] using rev_ind; [reflexivity|].
  rewrite replace_trailing_slash_snoc, ends_with_slash_snoc.
  destruct (code_eqb c SLASH); [|reflexivity].
  now rewrite removelast_last.
Qed.

Lemma replace_trailing_slash_kept (b : jsstring) :
  ends_with_slash b = false -> replace_trailing_slash b = b.
Proof.
  intro Hb. rewrite replace_trailing_slash_spec.
  unfold without_one_trailing_slash. now rewrite Hb.
Qed.

Lemma replace_trailing_slash_two (b : jsstring) :
  replace_trailing_slash (b ++ [SLASH; SLASH]) = b ++ [SLASH].
Proof.
  change (b ++ [SLASH; SLASH]) with (b ++ [SLASH] ++ [SLASH]).
  now rewrite app_assoc, replace_trailing_slash_snoc, code_eqb_refl.
Qed.

(** C10: the URL of the request made for an item is the base URL with at
    most one trailing slash removed, followed by "/v1/detect": this is the
    [url] of the options the HTTP helper is called with.  A base URL that
    ends in exactly one slash gives the same URL as the one without it, and
    one that ends in two slashes keeps one of them. *)
Theorem detect_url_trailing_slash (key b : jsstring) :
  ends_with_slash b = false ->
  (forall c, detect_url c =
             without_one_trailing_slash (baseUrl c) ++ lit "/v1/detect") /\
  detect_url {| apiKey := key; baseUrl := b |} = b ++ lit "/v1/detect" /\
  detect_url {| apiKey := key; baseUrl := b ++ [SLASH] |}
  = detect_url {| apiKey := key; baseUrl := b |} /\
  detect_url {| apiKey := key; baseUrl := b ++ [SLASH; SLASH] |}
  = (b ++ [SLASH]) ++ lit "/v1/detect" /\
  (forall (World Response : Type)
          (httpRequest :
             World -> RequestOptions -> Completion Response * World)
          c w i p payload,
     build_payload i p = Normal payload ->
     try_item httpRequest c w i p =
     httpRequest w (request_options c payload)) /\
  (forall c payload,
     url (request_options c payload) =
     without_one_trailing_slash (baseUrl c) ++ lit "/v1/detect") /\
  (forall payload,
     url (request_options {| apiKey := key; baseUrl := b |} payload)
     = b ++ lit "/v1/detect" /\
     url (request_options {| apiKey := key; baseUrl := b ++ [SLASH] |}
            payload)
     = b ++ lit "/v1/detect" /\
     url (request_options
            {| apiKey := key; baseUrl := b ++ [SLASH; SLASH] |} payload)
     = (b ++ [SLASH]) ++ lit "/v1/detect").
Proof.
  intro Hb.
  assert (Hone : replace_trailing_slash (b ++ [SLASH]) = b)
    by (now rewrite replace_trailing_slash_snoc, code_eqb_refl).
  unfold request_options, detect_url. cbn [baseUrl url].
  rewrite Hone, replace_trailing_slash_two,
    (replace_trailing_slash_kept b Hb).
  split; [intro c; now rewrite replace_trailing_slash_spec|].
  split; [reflexivity|]. split; [reflexivity|]. split; [reflexivity|].
  split.
  { intros World Response httpRequest c w i p payload H.
    unfold try_item. now rewrite H. }
  split; [intros c payload; now rewrite replace_trailing_slash_spec|].
  intro payload. repeat split.
Qed.

Lemma detect_url_trailing_slash_witness :
  (forall c, detect_url c =
             without_one_trailing_slash (baseUrl c) ++ lit "/v1/detect") /\
  detect_url {| apiKey := lit "k"; baseUrl := default_baseUrl |} = default_baseUrl ++ lit "/v1/detect" /\
  detect_url {| apiKey := lit "k"; baseUrl := default_baseUrl ++ [SLASH] |}
  = detect_url {| apiKey := lit "k"; baseUrl := default_baseUrl |} /\
  detect_url {| apiKey := lit "k"; baseUrl := default_baseUrl ++ [SLASH; SLASH] |}
  = (default_baseUrl ++ [SLASH]) ++ lit "/v1/detect" /\
  (forall (World Response : Type)
          (httpRequest :
             World -> RequestOptions -> Completion Response * World)
          c w i p payload,
     build_payload i p = Normal payload ->
     try_item httpRequest c w i p =
     httpRequest w (request_options c payload)) /\
  (forall c payload,
     url (request_options c payload) =
     without_one_trailing_slash (baseUrl c) ++ lit "/v1/detect") /\
  (forall payload,
     url (request_options {| apiKey := lit "k"; baseUrl := default_baseUrl |} payload)
     = default_baseUrl ++ lit "/v1/detect" /\
     url (request_options {| apiKey := lit "k"; baseUrl := default_baseUrl ++ [SLASH] |}
            payload)
     = default_baseUrl ++ lit "/v1/detect" /\
     url (request_options
            {| apiKey := lit "k"; baseUrl := default_baseUrl ++ [SLASH; SLASH] |} payload)
     = (default_baseUrl ++ [SLASH]) ++ lit "/v1/detect").
Proof.
  apply (detect_url_trailing_slash (lit "k") default_baseUrl). reflexivity.
Defined.

Example request_url_of_item :
  forall w : nat,
    try_item counting_service
      {| apiKey := lit "k"; baseUrl := lit "https://host/" |} w 0
      (item_of (lit "one"))
    = counting_service w
        {| method := lit "POST";
           url := lit "https://host/v1/detect";
           body := {| payload_prompt := lit "one";
                      detection_method := lit "INJECTION_GUARD";
                      rule_settings := None |};
           json_flag := true;
           headers := [ (lit "Authorization", lit "Bearer k");
                        (lit "Content-Type", lit "application/json") ] |}.
Proof. reflexivity. Qed.

(** ** Error classification *)

Lemma effective_status_of_response (e : JsError) (r : ErrorResponse) (z : Z) :
  status r = Some z -> z <> 0%Z -> effective_status e r = Some z.
Proof.
  intros Hs Hz. unfold effective_status, or_number, truthy_number.
  rewrite Hs. now apply Z.eqb_neq in Hz as ->.
Qed.

Lemma body_detail_or_cases (rb : option ResponseBody) (fallback : jsstring) :
  (truthy_string (optional_field rb detail) = true ->
   Some (body_detail_or rb fallback) = optional_field rb detail) /\
  (truthy_string (optional_field rb detail) = false ->
   truthy_string (optional_field rb error) = true ->
   Some (body_detail_or rb fallback) = optional_field rb error) /\
  (truthy_string (optional_field rb detail) = false ->
   truthy_string (optional_field rb error) = false ->
   body_detail_or rb fallback = fallback).
Proof.
  unfold body_detail_or, or_string.
  destruct (truthy_string (optional_field rb detail)) eqn:Hd.
  - rewrite Hd. repeat split; try discriminate.
    intros _. now destruct (optional_field rb detail).
  - destruct (truthy_string (optional_field rb error)) eqn:He.
    + repeat split; try discriminate.
      intros _ _. now destruct (optional_field rb error).
    + repeat split; discriminate.
Qed.

Lemma responseBody_chosen (r : ErrorResponse) (b : ResponseBody) :
  response_body r = Some b \/
  (response_body r = None /\ response_data r = Some b) ->
  responseBody r = Some b.
Proof.
  unfold responseBody, or_object. intros [-> | [-> ->]]; reflexivity.
Qed.

Lemma body_detail_or_chosen (r : ErrorResponse) (fallback : jsstring) :
  (forall b,
     response_body r = Some b \/
     (response_body r = None /\ response_data r = Some b) ->
     (truthy_string (detail b) = true ->
      Some (body_detail_or (responseBody r) fallback) = detail b) /\
     (truthy_string (detail b) = false -> truthy_string (error b) = true ->
      Some (body_detail_or (responseBody r) fallback) = error b) /\
     (truthy_string (detail b) = false -> truthy_string (error b) = false ->
      body_detail_or (responseBody r) fallback = fallback)) /\
  (response_body r = None -> response_data r = None ->
   body_detail_or (responseBody r) fallback = fallback).
Proof.
  split.
  - intros b Hb. rewrite (responseBody_chosen r b Hb).
    apply (body_detail_or_cases (Some b) fallback).
  - intros Hb Hd. unfold responseBody, or_object. rewrite Hb, Hd.
    reflexivity.
Qed.

Lemma effective_status_listed (e : JsError) (r : ErrorResponse) (z : Z) :
  z <> 0%Z ->
  status r = Some z \/ effective_status e r = Some z ->
  effective_status e r = Some z.
Proof.
  intros Hz [H|H]; [now apply effective_status_of_response|exact H].
Qed.

(** C4: for a caught error that has an HTTP response, status 401 gives
    "Authentication failed" and status 429 gives "Rate limit exceeded", each
    with its fixed details; status 400 gives "Invalid request" with the
    details taken from the response body's [detail] when it is a non-empty
    string, else from its [error] when that is a non-empty string, else the
    fixed text.  The response body is [e.response.body] when present, else
    [e.response.data]; the status is the response's own whenever that is a
    non-zero number, else the error's [statusCode]. *)
Theorem classify_http_status (e : JsError) (r : ErrorResponse) :
  response e = Some r ->
  (forall z, status r = Some z -> z <> 0%Z ->
             effective_status e r = Some z) /\
  (status r = Some 401%Z \/ effective_status e r = Some 401%Z ->
   classify e = (lit "Authentication failed", invalid_api_key_details)) /\
  (status r = Some 429%Z \/ effective_status e r = Some 429%Z ->
   classify e = (lit "Rate limit exceeded", rate_limit_details)) /\
  (status r = Some 400%Z \/ effective_status e r = Some 400%Z ->
   fst (classify e) = lit "Invalid request" /\
   (truthy_string (optional_field (responseBody r) detail) = true ->
    Some (snd (classify e)) = optional_field (responseBody r) detail) /\
   (truthy_string (optional_field (responseBody r) detail) = false ->
    truthy_string (optional_field (responseBody r) error) = true ->
    Some (snd (classify e)) = optional_field (responseBody r) error) /\
   (truthy_string (optional_field (responseBody r) detail) = false ->
    truthy_string (optional_field (responseBody r) error) = false ->
    snd (classify e) = malformed_details) /\
   (forall b,
      response_body r = Some b \/
      (response_body r = None /\ response_data r = Some b) ->
      (truthy_string (detail b) = true ->
       Some (snd (classify e)) = detail b) /\
      (truthy_string (detail b) = false -> truthy_string (error b) = true ->
       Some (snd (classify e)) = error b) /\
      (truthy_string (detail b) = false -> truthy_string (error b) = false ->
       snd (classify e) = malformed_details)) /\
   (response_body r = None -> response_data r = None ->
    snd (classify e) = malformed_details)).
Proof.
  intro Hr. unfold classify, classify_status. rewrite Hr.
  split; [intros z; apply effective_status_of_response|].
  split; [intro H; apply effective_status_listed in H; [|discriminate];
          now rewrite H|].
  split; [intro H; apply effective_status_listed in H; [|discriminate];
          now rewrite H|].
  intro H. apply effective_status_listed in H; [|discriminate].
  rewrite H. cbn [fst snd]. split; [reflexivity|].
  destruct (body_detail_or_cases (responseBody r) malformed_details)
    as (H1 & H2 & H3).
  destruct (body_detail_or_chosen r malformed_details) as (H4 & H5).
  repeat split; assumption || apply H4; assumption.
Qed.

Lemma classify_http_status_witness :
  (forall z, status bad_request_response = Some z -> z <> 0%Z ->
             effective_status bad_request_error bad_request_response = Some z) /\
  (status bad_request_response = Some 401%Z \/ effective_status bad_request_error bad_request_response = Some 401%Z ->
   classify bad_request_error = (lit "Authentication failed", invalid_api_key_details)) /\
  (status bad_request_response = Some 429%Z \/ effective_status bad_request_error bad_request_response = Some 429%Z ->
   classify bad_request_error = (lit "Rate limit exceeded", rate_limit_details)) /\
  (status bad_request_response = Some 400%Z \/ effective_status bad_request_error bad_request_response = Some 400%Z ->
   fst (classify bad_request_error) = lit "Invalid request" /\
   (truthy_string (optional_field (responseBody bad_request_response) detail) = true ->
    Some (snd (classify bad_request_error)) = optional_field (responseBody bad_request_response) detail) /\
   (truthy_string (optional_field (responseBody bad_request_response) detail) = false ->
    truthy_string (optional_field (responseBody bad_request_response) error) = true ->
    Some (snd (classify bad_request_error)) = optional_field (responseBody bad_request_response) error) /\
   (truthy_string (optional_field (responseBody bad_request_response) detail) = false ->
    truthy_string (optional_field (responseBody bad_request_response) error) = false ->
    snd (classify bad_request_error) = malformed_details) /\
   (forall b,
      response_body bad_request_response = Some b \/
      (response_body bad_request_response = None /\ response_data bad_request_response = Some b) ->
      (truthy_string (detail b) = true ->
       Some (snd (classify bad_request_error)) = detail b) /\
      (truthy_string (detail b) = false -> truthy_string (error b) = true ->
       Some (snd (classify bad_request_error)) = error b) /\
      (truthy_string (detail b) = false -> truthy_string (error b) = false ->
       snd (classify bad_request_error) = malformed_details)) /\
   (response_body bad_request_response = None -> response_data bad_request_response = None ->
    snd (classify bad_request_error) = malformed_details)).
Proof.
  apply (classify_http_status bad_request_error bad_request_response).
  reflexivity.
Defined.

Example classify_400_error_field :
  classify bad_request_error = (lit "Invalid request", lit "bad input").
Proof. reflexivity. Qed.

Example classify_401 :
  classify (http_error 401 None)
  = (lit "Authentication failed", invalid_api_key_details).
Proof. reflexivity. Qed.

Example classify_429 :
  classify (http_error 429 None)
  = (lit "Rate limit exceeded", rate_limit_details).
Proof. reflexivity. Qed.

Example classify_400_detail :
  classify (http_error 400
              (Some {| detail := Some (lit "prompt missing");
                       error := Some (lit "bad input") |}))
  = (lit "Invalid request", lit "prompt missing").
Proof. reflexivity. Qed.

Example classify_400_fixed :
  classify (http_error 400 None) = (lit "Invalid request", malformed_details).
Proof. reflexivity. Qed.

Example classify_validation_error :
  classify (NodeOperationError empty_prompt_message 4)
  = (empty_prompt_message, []).
Proof. reflexivity. Qed.

(** ** The item loop *)

Section ExecuteProperties.

Variable World : Type.
Variable Response : Type.
Variable httpRequest :
  World -> RequestOptions -> Completion Response * World.

Lemma item_outcomes_length c w i items :
  List.length (item_outcomes httpRequest c w i items) = List.length items.
Proof.
  revert w i. induction items as [|p rest IH]; intros w i; simpl.
  - reflexivity.
  - destruct (try_item httpRequest c w i p) as [o w']. simpl.
    now rewrite IH.
Qed.

Lemma outputs_from_length i (os : list (Completion Response)) :
  List.length (outputs_from i os) = List.length os.
Proof.
  revert i. induction os as [|o rest IH]; intro i; simpl;
    [reflexivity | now rewrite IH].
Qed.

Lemma outputs_from_nth i (os : list (Completion Response)) j :
  nth_error (outputs_from i os) j =
  option_map (output_item (i + j)) (nth_error os j).
Proof.
  revert i j. induction os as [|o rest IH]; intros i j.
  - now destruct j.
  - destruct j as [|j]; simpl.
    + now rewrite Nat.add_0_r.
    + rewrite IH. now rewrite Nat.add_succ_r.
Qed.

Lemma item_outcomes_firstn c w i items n :
  item_outcomes httpRequest c w i (firstn n items) = firstn n (item_outcomes httpRequest c w i items).
Proof.
  revert w i n. induction items as [|p rest IH]; intros w i n.
  - now destruct n.
  - destruct n as [|n]; [reflexivity|]. simpl.
    destruct (try_item httpRequest c w i p) as [o w']. simpl.
    now rewrite IH.
Qed.

(** In continue-on-failure mode the loop visits every item and appends one
    output per item, in order. *)
Lemma loop_continue c w i items returnData :
  loop httpRequest true c w i items returnData =
  (Normal [returnData ++ outputs_from i (item_outcomes httpRequest c w i items)],
   world_after httpRequest c w i items).
Proof.
  revert w i returnData.
  induction items as [|p rest IH]; intros w i returnData; simpl.
  - now rewrite app_nil_r.
  - destruct (try_item httpRequest c w i p) as [[r|e] w']; simpl;
      rewrite IH, <- app_assoc; reflexivity.
Qed.

(** Without it the loop stops at the first item whose [try] block
    throws. *)
Lemma loop_abort c w i items returnData k e :
  nth_error (item_outcomes httpRequest c w i items) k = Some (Throw e) ->
  (forall j, j < k ->
             exists r, nth_error (item_outcomes httpRequest c w i items) j = Some (Normal r)) ->
  loop httpRequest false c w i items returnData =
  (Throw (NodeOperationError (fullError e) (i + k)),
   world_after httpRequest c w i (firstn (S k) items)).
Proof.
  revert w i returnData k.
  induction items as [|p rest IH]; intros w i returnData k Hk Hbefore.
  - now destruct k.
  - simpl in Hk, Hbefore |- *.
    destruct (try_item httpRequest c w i p) as [o w'] eqn:Ht.
    destruct k as [|k].
    + simpl in Hk. injection Hk as ->. simpl. now rewrite Nat.add_0_r.
    + destruct (Hbefore 0) as [r Hr]; [lia|].
      simpl in Hr. injection Hr as ->. simpl in Hk.
      rewrite (IH w' (S i) _ k Hk).
      * now rewrite Nat.add_succ_r.
      * intros j Hj. apply (Hbefore (S j)). lia.
Qed.

(** C2: in continue-on-failure mode, when exactly one of the N items fails
    (in validation or in the HTTP call), the run returns one array of
    List.length N; the failing index holds the ErrorRecord of the error, every
    other index holds the decoded response of its item, and each output's
    [pairedItem] is the index of its input item. *)
Theorem continue_on_fail_one_failure c w items k e :
  nth_error (item_outcomes httpRequest c w 0 items) k = Some (Throw e) ->
  (forall j, j < List.length items -> j <> k ->
             exists r, nth_error (item_outcomes httpRequest c w 0 items) j = Some (Normal r)) ->
  exists out,
    fst (execute httpRequest true c w items) = Normal [out] /\
    List.length out = List.length items /\
    nth_error out k =
      Some {| json := ErrorJson (error_record e); pairedItem := k |} /\
    (forall j, j < List.length items -> j <> k ->
       exists r,
         nth_error (item_outcomes httpRequest c w 0 items) j = Some (Normal r) /\
         nth_error out j =
           Some {| json := ResponseJson r; pairedItem := j |}) /\
    (forall j o, nth_error out j = Some o -> pairedItem o = j).
Proof.
  intros Hk Hothers.
  exists (outputs_from 0 (item_outcomes httpRequest c w 0 items)).
  split; [unfold execute; now rewrite loop_continue|].
  split; [now rewrite outputs_from_length, item_outcomes_length|].
  split; [now rewrite outputs_from_nth, Hk|].
  split.
  - intros j Hj Hne. destruct (Hothers j Hj Hne) as [r Hr].
    exists r. split; [exact Hr|]. now rewrite outputs_from_nth, Hr.
  - intros j o. rewrite outputs_from_nth.
    destruct (nth_error (item_outcomes httpRequest c w 0 items) j) as [[r|e']|];
      simpl; intro H; [| |discriminate]; now injection H as <-.
Qed.

Lemma loop_raising_abort (OperationError : Type)
    (raise : jsstring -> nat -> OperationError) c w i items returnData k e :
  nth_error (item_outcomes httpRequest c w i items) k = Some (Throw e) ->
  (forall j, j < k ->
             exists r, nth_error (item_outcomes httpRequest c w i items) j
                       = Some (Normal r)) ->
  loop_raising httpRequest raise false c w i items returnData =
  (Raised (raise (fullError e) (i + k)),
   world_after httpRequest c w i (firstn (S k) items)).
Proof.
  revert w i returnData k.
  induction items as [|p rest IH]; intros w i returnData k Hk Hbefore.
  - now destruct k.
  - simpl in Hk, Hbefore |- *.
    destruct (try_item httpRequest c w i p) as [o w'] eqn:Ht.
    destruct k as [|k].
    + simpl in Hk. injection Hk as ->. simpl. now rewrite Nat.add_0_r.
    + destruct (Hbefore 0) as [r Hr]; [lia|].
      simpl in Hr. injection Hr as ->. simpl in Hk.
      rewrite (IH w' (S i) _ k Hk).
      * now rewrite Nat.add_succ_r.
      * intros j Hj. apply (Hbefore (S j)). lia.
Qed.

(** With the kept-message constructor for [raise], [loop_raising] is
    [loop]. *)
Lemma loop_as_raising flag c w i items returnData :
  loop_raising httpRequest NodeOperationError flag c w i items returnData =
  (as_run_result (fst (loop httpRequest flag c w i items returnData)),
   snd (loop httpRequest flag c w i items returnData)).
Proof.
  revert w i returnData.
  induction items as [|p rest IH]; intros w i returnData; simpl.
  - reflexivity.
  - destruct (try_item httpRequest c w i p) as [[r|e] w']; simpl.
    + apply IH.
    + destruct flag; [apply IH|reflexivity].
Qed.

(** C3: without continue-on-failure, the first failing item (in validation
    or in the HTTP call) makes the run raise one operation error: the
    object the library's constructor builds from the combined message,
    as its message argument, and that item's index, as its [itemIndex]
    option.  This holds for every such constructor.  No output array is
    returned, and the items after the failing one are not visited: the run
    is the same as on the items up to it. *)
Theorem abort_at_first_failure (OperationError : Type)
    (raise : jsstring -> nat -> OperationError) c w items k e :
  nth_error (item_outcomes httpRequest c w 0 items) k = Some (Throw e) ->
  (forall j, j < k ->
             exists r, nth_error (item_outcomes httpRequest c w 0 items) j
                       = Some (Normal r)) ->
  execute_raising httpRequest raise false c w items =
    (Raised (raise (fullError e) k),
     world_after httpRequest c w 0 (firstn (S k) items)) /\
  fullError e =
    (if truthy_string (Some (snd (classify e)))
     then fst (classify e) ++ lit ": " ++ snd (classify e)
     else fst (classify e)) /\
  (forall data,
     fst (execute_raising httpRequest raise false c w items)
     <> Returned data) /\
  execute_raising httpRequest raise false c w items =
    execute_raising httpRequest raise false c w (firstn (S k) items).
Proof.
  intros Hk Hbefore. unfold execute_raising.
  assert (Hrun := loop_raising_abort OperationError raise c w 0 items [] k e Hk Hbefore).
  split; [exact Hrun|]. split; [|split].
  - unfold fullError. now destruct (classify e).
  - intro data. rewrite Hrun. discriminate.
  - rewrite Hrun. symmetry.
    rewrite (loop_raising_abort OperationError raise c w 0 (firstn (S k) items) [] k e).
    + now rewrite firstn_firstn, Nat.min_id.
    + rewrite item_outcomes_firstn, nth_error_firstn.
      now replace (Nat.ltb k (S k)) with true
        by (symmetry; apply Nat.ltb_lt; lia).
    + intros j Hj. rewrite item_outcomes_firstn, nth_error_firstn.
      replace (Nat.ltb j (S k)) with true
        by (symmetry; apply Nat.ltb_lt; lia).
      now apply Hbefore.
Qed.

End ExecuteProperties.

(** *** Runs against the counting service *)

Lemma continue_on_fail_one_failure_witness :
  exists out,
    fst (execute counting_service true sample_credentials 0 sample_items)
    = Normal [out] /\
    List.length out = List.length sample_items /\
    nth_error out 1 =
      Some {| json := ErrorJson (error_record (http_error 401 None));
              pairedItem := 1 |} /\
    (forall j, j < List.length sample_items -> j <> 1 ->
       exists r,
         nth_error
           (item_outcomes counting_service sample_credentials 0 0 sample_items)
           j = Some (Normal r) /\
         nth_error out j = Some {| json := ResponseJson r; pairedItem := j |})
    /\
    (forall j o, nth_error out j = Some o -> pairedItem o = j).
Proof.
  apply (continue_on_fail_one_failure nat jsstring counting_service sample_credentials 0
           sample_items 1 (http_error 401 None)).
  - reflexivity.
  - intros j Hj Hne. destruct j as [|[|[|j]]]; simpl in Hj.
    + eexists; reflexivity.
    + lia.
    + eexists; reflexivity.
    + lia.
Defined.

Lemma abort_at_first_failure_witness :
  execute_raising counting_service (@pair jsstring nat) false
    sample_credentials 0 sample_items =
    (Raised (fullError (http_error 401 None), 1),
     world_after counting_service sample_credentials 0 0
       (firstn 2 sample_items)) /\
  fullError (http_error 401 None) =
    (if truthy_string (Some (snd (classify (http_error 401 None))))
     then fst (classify (http_error 401 None)) ++ lit ": " ++
          snd (classify (http_error 401 None))
     else fst (classify (http_error 401 None))) /\
  (forall data,
     fst (execute_raising counting_service (@pair jsstring nat) false
            sample_credentials 0 sample_items) <> Returned data) /\
  execute_raising counting_service (@pair jsstring nat) false
    sample_credentials 0 sample_items =
    execute_raising counting_service (@pair jsstring nat) false
      sample_credentials 0 (firstn 2 sample_items).
Proof.
  apply (abort_at_first_failure nat jsstring counting_service
           (jsstring * nat)%type (@pair jsstring nat)
           sample_credentials 0 sample_items 1 (http_error 401 None)).
  - reflexivity.
  - intros j Hj. destruct j as [|j].
    + eexists; reflexivity.
    + lia.
Defined.

Example run_raising_transport_error :
  execute_raising counting_service (@pair jsstring nat) false
    sample_credentials 0 sample_items =
  (Raised
     (lit "Authentication failed: Invalid API key. Please check your Antijection API credentials.",
      1),
   2).
Proof. reflexivity. Qed.

Example run_continue_transport_error :
  execute counting_service true sample_credentials 0 sample_items =
  (Normal
     [[ {| json := ResponseJson (lit "one"); pairedItem := 0 |};
        {| json := ErrorJson
                     {| record_error := lit "Authentication failed";
                        record_details := invalid_api_key_details;
                        record_statusCode := Some 401%Z |};
           pairedItem := 1 |};
        {| json := ResponseJson (lit "three"); pairedItem := 2 |} ]],
   3).
Proof. reflexivity. Qed.

Example run_continue_validation_error :
  execute counting_service true sample_credentials 0 sample_items_blank =
  (Normal
     [[ {| json := ResponseJson (lit "one"); pairedItem := 0 |};
        {| json := ErrorJson
                     {| record_error := lit "Prompt cannot be empty";
                        record_details := [];
                        record_statusCode := None |};
           pairedItem := 1 |};
        {| json := ResponseJson (lit "three"); pairedItem := 2 |} ]],
   2).
Proof. reflexivity. Qed.

Example run_abort_transport_error :
  execute counting_service false sample_credentials 0 sample_items =
  (Throw
     (NodeOperationError
        (lit "Authentication failed: Invalid API key. Please check your Antijection API credentials.")
        1),
   2).
Proof. reflexivity. Qed.

Example run_abort_validation_error :
  execute counting_service false sample_credentials 0 sample_items_blank =
  (Throw (NodeOperationError (lit "Prompt cannot be empty") 1), 1).
Proof. reflexivity. Qed.

Example request_of_first_item :
  url (request_options sample_credentials
         {| payload_prompt := lit "one";
            detection_method := lit "INJECTION_GUARD";
            rule_settings := None |})
  = lit "https://api.antijection.com/v1/detect".
Proof. reflexivity. Qed.

(** ** Further properties: trimming and blocked keywords *)

Lemma whitespace_only_app (a b : jsstring) :
  whitespace_only (a ++ b) = whitespace_only a && whitespace_only b.
Proof. apply forallb_app. Qed.

Lemma trimStart_prefix (s : jsstring) :
  exists a, s = a ++ trimStart s /\ whitespace_only a = true.
Proof.
  induction s as [|c r (a & Ha & Hw)]; simpl.
  - now exists [].
  - destruct (isWhiteSpace c) eqn:Hc.
    + exists (c :: a). simpl. rewrite Hc, Hw. now rewrite <- Ha.
    + now exists [].
Qed.

Lemma trimStart_app_kept (x y : jsstring) (c : N) :
  isWhiteSpace c = false ->
  trimStart (x ++ c :: y) = trimStart x ++ c :: y.
Proof.
  intro Hc. induction x as [|d x IH]; simpl.
  - now rewrite Hc.
  - now destruct (isWhiteSpace d).
Qed.

Lemma trimEnd_cons_kept (c : N) (r : jsstring) :
  isWhiteSpace c = false -> trimEnd (c :: r) = c :: trimEnd r.
Proof.
  intro Hc. unfold trimEnd. simpl.
  rewrite (trimStart_app_kept (rev r) [] c Hc), rev_app_distr. reflexivity.
Qed.

Lemma trimEnd_suffix (s : jsstring) :
  exists b, s = trimEnd s ++ b /\ whitespace_only b = true.
Proof.
  destruct (trimStart_prefix (rev s)) as (a & Ha & Hw).
  exists (rev a). split.
  - unfold trimEnd. rewrite <- rev_app_distr, <- Ha. now rewrite rev_involutive.
  - now rewrite whitespace_only_rev.
Qed.

(** [trim] removes a white-space prefix and a white-space suffix and nothing
    else. *)
Lemma trim_infix (s : jsstring) :
  exists a b,
    s = a ++ trim s ++ b /\
    whitespace_only a = true /\ whitespace_only b = true.
Proof.
  destruct (trimStart_prefix s) as (a & Ha & Hwa).
  destruct (trimEnd_suffix (trimStart s)) as (b & Hb & Hwb).
  exists a, b. unfold trim. now rewrite <- Hb, <- Ha.
Qed.

Lemma trim_first (s : jsstring) (c : N) (r : jsstring) :
  trim s = c :: r -> isWhiteSpace c = false.
Proof.
  unfold trim. destruct (trimStart s) as [|d t] eqn:Hs.
  - discriminate.
  - pose proof (trimStart_head s d t Hs) as Hd.
    rewrite (trimEnd_cons_kept d t Hd). now intros [= <- _].
Qed.

Lemma trim_last (s : jsstring) (c : N) (r : jsstring) :
  rev (trim s) = c :: r -> isWhiteSpace c = false.
Proof.
  unfold trim, trimEnd. rewrite rev_involutive. apply trimStart_head.
Qed.

Lemma trim_clean (k : jsstring) : is_clean_keyword k = true -> trim k = k.
Proof.
  unfold is_clean_keyword. intro H.
  apply andb_prop in H as [H _]. apply andb_prop in H as [Hf Hl].
  destruct k as [|c r]; [discriminate|].
  apply negb_true_iff in Hf.
  assert (Hs : trimStart (c :: r) = c :: r) by (simpl; now rewrite Hf).
  unfold trim, trimEnd. rewrite Hs.
  destruct (rev (c :: r)) as [|d t] eqn:Hr; [discriminate|].
  apply negb_true_iff in Hl.
  replace (trimStart (d :: t)) with (d :: t) by (simpl; now rewrite Hl).
  rewrite <- Hr. apply rev_involutive.
Qed.

Lemma trim_of_line_clean (piece : jsstring) :
  ~ In LF piece -> trim piece <> [] -> is_clean_keyword (trim piece) = true.
Proof.
  intros Hlf Hne. unfold is_clean_keyword.
  destruct (trim piece) as [|c r] eqn:Ht; [congruence|].
  rewrite (trim_first piece c r Ht). cbn [negb andb].
  destruct (rev (c :: r)) as [|d t] eqn:Hr.
  { apply (f_equal (@List.length N)) in Hr. rewrite length_rev in Hr.
    discriminate. }
  rewrite <- Ht in Hr. rewrite (trim_last piece d t Hr). cbn [negb andb].
  apply negb_true_iff.
  destruct (existsb (code_eqb LF) (c :: r)) eqn:He; [|reflexivity].
  exfalso. apply existsb_exists in He as (x & Hin & Hx).
  apply N.eqb_eq in Hx. subst x.
  destruct (trim_infix piece) as (a & b & Hp & _).
  apply Hlf. rewrite Hp, Ht. apply in_or_app. right.
  apply in_or_app. now left.
Qed.

Lemma keywords_of_lines_clean (pieces : list jsstring) :
  Forall (fun p => ~ In LF p) pieces ->
  Forall (fun k => is_clean_keyword k = true) (keywords_of_lines pieces).
Proof.
  unfold keywords_of_lines.
  induction 1 as [|p ps Hp _ IH]; simpl; [constructor|].
  destruct (trim p) as [|c r] eqn:Ht; simpl; [exact IH|].
  constructor; [|exact IH].
  rewrite <- Ht. apply trim_of_line_clean; [exact Hp|congruence].
Qed.

Lemma keywords_of_clean_lines (ks : list jsstring) :
  Forall (fun k => is_clean_keyword k = true) ks ->
  keywords_of_lines ks = ks.
Proof.
  unfold keywords_of_lines.
  induction 1 as [|k ks Hk _ IH]; simpl; [reflexivity|].
  rewrite (trim_clean k Hk), IH.
  destruct k; [discriminate Hk|reflexivity].
Qed.

Lemma clean_keyword_no_newline (k : jsstring) :
  is_clean_keyword k = true -> ~ In LF k.
Proof.
  unfold is_clean_keyword. intros H Hin.
  apply andb_prop in H as [_ H]. apply negb_true_iff in H.
  assert (existsb (code_eqb LF) k = true); [|congruence].
  apply existsb_exists. exists LF. split; [exact Hin|apply code_eqb_refl].
Qed.

Lemma blockedKeywords_list_clean (field : option jsstring) :
  Forall (fun k => is_clean_keyword k = true) (blockedKeywords_list field).
Proof.
  destruct field as [s|]; [|constructor].
  rewrite blockedKeywords_list_lines.
  apply keywords_of_lines_clean, split_pieces.
Qed.

Lemma blockedKeywords_list_join (ks : list jsstring) :
  Forall (fun k => is_clean_keyword k = true) ks ->
  blockedKeywords_list (Some (join LF ks)) = ks.
Proof.
  intro Hks. destruct ks as [|k ks']; [reflexivity|].
  rewrite blockedKeywords_list_lines.
  rewrite <- (newline_split_unique (join LF (k :: ks')) (k :: ks')).
  - now apply keywords_of_clean_lines.
  - split; [discriminate|]. split; [reflexivity|].
    revert Hks. apply Forall_impl. apply clean_keyword_no_newline.
Qed.

(** X4: clean keywords, one per line, are sent exactly as written, in the
    order written: splitting undoes joining. *)
Theorem blocked_keywords_round_trip
    (rs : RuleSettingsParameter) (ks : list jsstring) :
  Forall (fun k => is_clean_keyword k = true) ks ->
  blockedKeywords rs = Some (join LF ks) ->
  blocked_keywords (build_rule_settings rs) = ks.
Proof.
  intros Hks Hfield. cbn [build_rule_settings blocked_keywords].
  rewrite Hfield. now apply blockedKeywords_list_join.
Qed.

Lemma blocked_keywords_round_trip_witness :
  blocked_keywords (build_rule_settings placeholder_settings)
  = [lit "internal_project_name"; lit "<special_token>"].
Proof.
  apply (blocked_keywords_round_trip placeholder_settings
           [lit "internal_project_name"; lit "<special_token>"]).
  - repeat constructor.
  - reflexivity.
Defined.

(** X5: every keyword sent is clean (not empty, no white space at either end,
    no newline inside), whatever the field holds, and running the list
    through the field again changes nothing. *)
Theorem blocked_keywords_normal_form (field : option jsstring) :
  Forall (fun k => is_clean_keyword k = true) (blockedKeywords_list field) /\
  blockedKeywords_list (Some (join LF (blockedKeywords_list field)))
  = blockedKeywords_list field.
Proof.
  split.
  - apply blockedKeywords_list_clean.
  - apply blockedKeywords_list_join, blockedKeywords_list_clean.
Qed.

Lemma whitespace_only_join (pieces : list jsstring) :
  whitespace_only (join LF pieces) = forallb whitespace_only pieces.
Proof.
  induction pieces as [|p ps IH]; [reflexivity|].
  destruct ps as [|q qs].
  - simpl. now rewrite andb_true_r.
  - change (join LF (p :: q :: qs)) with (p ++ LF :: join LF (q :: qs)).
    rewrite whitespace_only_app.
    change (whitespace_only (LF :: join LF (q :: qs)))
      with (whitespace_only (join LF (q :: qs))).
    now rewrite IH.
Qed.

Lemma keywords_of_lines_nil (pieces : list jsstring) :
  keywords_of_lines pieces = [] <-> forallb whitespace_only pieces = true.
Proof.
  unfold keywords_of_lines.
  induction pieces as [|p ps IH]; simpl; [tauto|].
  destruct (whitespace_only p) eqn:Hw; simpl.
  - apply trim_blank in Hw. rewrite Hw. simpl. exact IH.
  - destruct (trim p) as [|c r] eqn:Ht.
    + apply trim_blank in Ht. congruence.
    + simpl. split; discriminate.
Qed.

(** X6: the list of blocked keywords is empty exactly when the field is absent
    or holds nothing but white space and newlines. *)
Theorem blocked_keywords_empty_iff (rs : RuleSettingsParameter) :
  blocked_keywords (build_rule_settings rs) = [] <->
  match blockedKeywords rs with
  | Some s => whitespace_only s = true
  | None => True
  end.
Proof.
  cbn [build_rule_settings blocked_keywords].
  destruct (blockedKeywords rs) as [s|]; [|simpl; tauto].
  rewrite blockedKeywords_list_lines, keywords_of_lines_nil.
  rewrite <- whitespace_only_join, join_split. tauto.
Qed.

Example blocked_keywords_padded_field :
  blockedKeywords_list (Some sample_keywords_field)
  = [lit "secret"; lit "api key"].
Proof. reflexivity. Qed.

(** ** Further properties: validation and the payload *)

Lemma build_payload_long (i : nat) (p : NodeParameters) :
  whitespace_only (prompt p) = false ->
  (10000 < js_length (prompt p))%Z ->
  build_payload i p =
  Throw (NodeOperationError (too_long_message (js_length (prompt p))) i).
Proof.
  intros Hw Hlen. unfold build_payload, prompt_is_too_long.
  rewrite prompt_is_empty_blank, Hw.
  now replace (Z.ltb 10000 (js_length (prompt p))) with true
    by (symmetry; apply Z.ltb_lt; exact Hlen).
Qed.

Lemma nonblank_length (text : jsstring) :
  whitespace_only text = false -> (1 <= js_length text)%Z.
Proof.
  destruct text; [discriminate|]. unfold js_length. simpl List.length. lia.
Qed.

Lemma prompt_accepted_spec (text : jsstring) :
  prompt_accepted text = true <->
  whitespace_only text = false /\ (1 <= js_length text <= 10000)%Z.
Proof.
  unfold prompt_accepted. rewrite andb_true_iff, negb_true_iff, Z.leb_le.
  split.
  - intros [Hw Hlen]. pose proof (nonblank_length _ Hw). tauto.
  - tauto.
Qed.

Lemma build_payload_cases (i : nat) (p : NodeParameters) :
  (whitespace_only (prompt p) = true /\
   build_payload i p = Throw (NodeOperationError empty_prompt_message i)) \/
  (whitespace_only (prompt p) = false /\
   (10000 < js_length (prompt p))%Z /\
   build_payload i p =
   Throw (NodeOperationError (too_long_message (js_length (prompt p))) i)) \/
  (prompt_accepted (prompt p) = true /\
   build_payload i p =
   Normal {| payload_prompt := prompt p;
             detection_method := detectionMethod p;
             rule_settings :=
               option_map build_rule_settings (ruleSettings p) |}).
Proof.
  destruct (whitespace_only (prompt p)) eqn:Hw.
  - left. split; [reflexivity|]. now apply build_payload_blank.
  - right.
    destruct (Z.le_gt_cases (js_length (prompt p)) 10000) as [Hle|Hgt].
    + right. split; [|now apply build_payload_accepts].
      apply prompt_accepted_spec. pose proof (nonblank_length _ Hw). tauto.
    + left. split; [reflexivity|]. split; [exact Hgt|].
      now apply build_payload_long.
Qed.

(** X1: an item is accepted exactly when its prompt is not blank and has at most
    10000 code units; the detection method and the rule settings play no
    part, and an accepted prompt has at least one code unit. *)
Theorem build_payload_accepted_iff (i : nat) (p : NodeParameters) :
  ((exists payload, build_payload i p = Normal payload) <->
   prompt_accepted (prompt p) = true) /\
  (prompt_accepted (prompt p) = true <->
   whitespace_only (prompt p) = false /\
   (1 <= js_length (prompt p) <= 10000)%Z).
Proof.
  split; [|apply prompt_accepted_spec].
  destruct (build_payload_cases i p)
    as [[Hw H] | [(Hw & Hgt & H) | [Hacc H]]]; rewrite H.
  - split; [intros [? ?]; discriminate|].
    intro Hacc. apply prompt_accepted_spec in Hacc. destruct Hacc. congruence.
  - split; [intros [? ?]; discriminate|].
    intro Hacc. apply prompt_accepted_spec in Hacc. lia.
  - split; [trivial|]. intros _. now eexists.
Qed.

(** X2: every payload that is built satisfies the request's data model: its
    prompt is the item's prompt, not blank, of 1 to 10000 code units; the
    method is passed through; [rule_settings] is present exactly when the
    collection is, and its keywords are clean. *)
Theorem built_payload_well_formed
    (i : nat) (p : NodeParameters) (payload : DetectionRequest) :
  build_payload i p = Normal payload ->
  payload_prompt payload = prompt p /\
  whitespace_only (payload_prompt payload) = false /\
  (1 <= js_length (payload_prompt payload) <= 10000)%Z /\
  detection_method payload = detectionMethod p /\
  rule_settings payload = option_map build_rule_settings (ruleSettings p) /\
  (rule_settings payload = None <-> ruleSettings p = None) /\
  (forall rule, rule_settings payload = Some rule ->
     Forall (fun k => is_clean_keyword k = true) (blocked_keywords rule)).
Proof.
  intro H.
  destruct (build_payload_cases i p)
    as [[_ H'] | [(_ & _ & H') | [Hacc H']]];
    rewrite H' in H; try discriminate.
  apply prompt_accepted_spec in Hacc as [Hw Hlen].
  injection H as <-.
  cbn [payload_prompt detection_method rule_settings].
  repeat split; try assumption; try tauto.
  - now destruct (ruleSettings p).
  - now destruct (ruleSettings p).
  - intros rule Hr. destruct (ruleSettings p) as [rs|]; [|discriminate].
    injection Hr as <-. apply blockedKeywords_list_clean.
Qed.

Lemma built_payload_well_formed_witness :
  payload_prompt credential_test_body = prompt (item_of (lit "health check"))
  /\
  whitespace_only (payload_prompt credential_test_body) = false /\
  (1 <= js_length (payload_prompt credential_test_body) <= 10000)%Z /\
  detection_method credential_test_body
  = detectionMethod (item_of (lit "health check")) /\
  rule_settings credential_test_body
  = option_map build_rule_settings
      (ruleSettings (item_of (lit "health check"))) /\
  (rule_settings credential_test_body = None <->
   ruleSettings (item_of (lit "health check")) = None) /\
  (forall rule, rule_settings credential_test_body = Some rule ->
     Forall (fun k => is_clean_keyword k = true) (blocked_keywords rule)).
Proof.
  apply (built_payload_well_formed 0 (item_of (lit "health check"))
           credential_test_body).
  reflexivity.
Defined.

(** X3: a validation error is one of the two [NodeOperationError]s of lines 197
    and 205, for the item's own index; it has no response, so the [catch]
    block leaves its message alone: no details, no status, and the error
    thrown again is the same error. *)
Theorem validation_error_passes_through
    (i : nat) (p : NodeParameters) (e : JsError) :
  build_payload i p = Throw e ->
  (e = NodeOperationError empty_prompt_message i \/
   e = NodeOperationError (too_long_message (js_length (prompt p))) i) /\
  classify e = (message e, []) /\
  error_record e =
    {| record_error := message e; record_details := [];
       record_statusCode := None |} /\
  NodeOperationError (fullError e) i = e.
Proof.
  intro H.
  assert (He : e = NodeOperationError empty_prompt_message i \/
               e = NodeOperationError
                     (too_long_message (js_length (prompt p))) i).
  { destruct (build_payload_cases i p)
      as [[_ H'] | [(_ & _ & H') | [_ H']]];
      rewrite H' in H; [left|right|discriminate]; congruence. }
  split; [exact He|].
  destruct He as [-> | ->]; repeat split.
Qed.

Lemma validation_error_passes_through_witness :
  (NodeOperationError empty_prompt_message 5
   = NodeOperationError empty_prompt_message 5 \/
   NodeOperationError empty_prompt_message 5
   = NodeOperationError (too_long_message (js_length (prompt blank_item))) 5)
  /\
  classify (NodeOperationError empty_prompt_message 5)
  = (message (NodeOperationError empty_prompt_message 5), []) /\
  error_record (NodeOperationError empty_prompt_message 5) =
    {| record_error := message (NodeOperationError empty_prompt_message 5);
       record_details := [];
       record_statusCode := None |} /\
  NodeOperationError (fullError (NodeOperationError empty_prompt_message 5)) 5
  = NodeOperationError empty_prompt_message 5.
Proof.
  apply (validation_error_passes_through 5 blank_item
           (NodeOperationError empty_prompt_message 5)).
  reflexivity.
Defined.

Example accepted_at_the_limit :
  prompt_accepted (repeat_code 97 10000) = true /\
  prompt_accepted (repeat_code 97 10001) = false.
Proof. split; vm_compute; reflexivity. Qed.

(** ** Further properties: error classification *)

Lemma classify_status_unlisted (e : JsError) (r : ErrorResponse) :
  (forall z, effective_status e r = Some z -> ~ In z listed_statuses) ->
  classify_status e r =
  (lit "HTTP " ++ optional_number_to_string (effective_status e r) ++
   lit " error",
   body_detail_or (responseBody r) (message e)).
Proof.
  intro H. unfold classify_status.
  destruct (effective_status e r) as [z|]; [|reflexivity].
  specialize (H z eq_refl). unfold listed_statuses in H.
  destruct z as [|q|q]; try reflexivity.
  repeat (destruct q as [q|q|]; try reflexivity);
    exfalso; apply H; simpl; tauto.
Qed.

(** X7: the remaining fixed rows of the [switch]: 403 gives "Access forbidden",
    and 500, 502 and 503 give "Antijection API error", each with its fixed
    details; what the response body or the error's own message say is not
    used. *)
Theorem classify_forbidden_and_server_errors
    (e : JsError) (r : ErrorResponse) :
  response e = Some r ->
  (effective_status e r = Some 403%Z ->
   classify e = (lit "Access forbidden", forbidden_details)) /\
  (effective_status e r = Some 500%Z \/
   effective_status e r = Some 502%Z \/
   effective_status e r = Some 503%Z ->
   classify e = (lit "Antijection API error", unavailable_details)).
Proof.
  intro Hr. unfold classify, classify_status. rewrite Hr.
  split; [now intros ->|]. now intros [-> | [-> | ->]].
Qed.

Lemma classify_forbidden_and_server_errors_witness :
  (effective_status forbidden_error forbidden_response = Some 403%Z ->
   classify forbidden_error = (lit "Access forbidden", forbidden_details)) /\
  (effective_status forbidden_error forbidden_response = Some 500%Z \/
   effective_status forbidden_error forbidden_response = Some 502%Z \/
   effective_status forbidden_error forbidden_response = Some 503%Z ->
   classify forbidden_error
   = (lit "Antijection API error", unavailable_details)).
Proof.
  apply (classify_forbidden_and_server_errors forbidden_error
           forbidden_response).
  reflexivity.
Defined.

(** X8: the [default] row: for an HTTP error whose status is none of the
    seven listed ones the message is "HTTP <status> error", with the status
    in decimal, or the word "undefined" when there is no status at all.  The
    details come from [e.response.body], or from [e.response.data] when
    there is no [body]: with [detail] and [error] strings wherever present,
    as the [catch] block declares them, the details are that object's
    [detail] if not empty, else its [error] if not empty, else the error's
    own message; without [body] and [data] they are the error's own
    message. *)
Theorem classify_unlisted_status (e : JsError) (r : ErrorResponse) :
  response e = Some r ->
  (forall z, effective_status e r = Some z -> ~ In z listed_statuses) ->
  fst (classify e) =
    lit "HTTP " ++ optional_number_to_string (effective_status e r) ++
    lit " error" /\
  (effective_status e r = None ->
   fst (classify e) = lit "HTTP undefined error") /\
  (forall b,
     response_body r = Some b \/
     (response_body r = None /\ response_data r = Some b) ->
     (truthy_string (detail b) = true ->
      Some (snd (classify e)) = detail b) /\
     (truthy_string (detail b) = false -> truthy_string (error b) = true ->
      Some (snd (classify e)) = error b) /\
     (truthy_string (detail b) = false -> truthy_string (error b) = false ->
      snd (classify e) = message e)) /\
  (response_body r = None -> response_data r = None ->
   snd (classify e) = message e).
Proof.
  intros Hr Hun. unfold classify. rewrite Hr.
  rewrite (classify_status_unlisted e r Hun). cbn [fst snd].
  split; [reflexivity|]. split; [now intros ->|].
  apply body_detail_or_chosen.
Qed.

Lemma classify_unlisted_status_witness :
  fst (classify teapot_error) =
    lit "HTTP " ++ optional_number_to_string (effective_status teapot_error teapot_response) ++
    lit " error" /\
  (effective_status teapot_error teapot_response = None ->
   fst (classify teapot_error) = lit "HTTP undefined error") /\
  (forall b,
     response_body teapot_response = Some b \/
     (response_body teapot_response = None /\ response_data teapot_response = Some b) ->
     (truthy_string (detail b) = true ->
      Some (snd (classify teapot_error)) = detail b) /\
     (truthy_string (detail b) = false -> truthy_string (error b) = true ->
      Some (snd (classify teapot_error)) = error b) /\
     (truthy_string (detail b) = false -> truthy_string (error b) = false ->
      snd (classify teapot_error) = message teapot_error)) /\
  (response_body teapot_response = None -> response_data teapot_response = None ->
   snd (classify teapot_error) = message teapot_error).
Proof.
  apply (classify_unlisted_status teapot_error teapot_response).
  - reflexivity.
  - intros z Hz. injection Hz as <-. simpl. intuition discriminate.
Defined.

Example classify_body_before_data :
  classify
    {| message := lit "Request failed";
       response :=
         Some {| status := Some 400%Z;
                 response_body :=
                   Some {| detail := Some (lit "from body"); error := None |};
                 response_data :=
                   Some {| detail := Some (lit "from data");
                           error := None |} |};
       statusCode := None;
       itemIndex := None |}
  = (lit "Invalid request", lit "from body").
Proof. reflexivity. Qed.

Example classify_teapot :
  classify teapot_error = (lit "HTTP 418 error", lit "teapot").
Proof. reflexivity. Qed.

(** X9: when the response has no status, or status 0, the error's own
    [statusCode] decides: it selects the row of the [switch] and it is the
    [statusCode] of the error record.  When the response has a non-zero
    status, that one is used for both. *)
Theorem status_falls_back_to_error (e : JsError) (r : ErrorResponse) :
  response e = Some r ->
  (truthy_number (status r) = false ->
   effective_status e r = statusCode e /\
   record_statusCode (error_record e) = statusCode e) /\
  (truthy_number (status r) = true ->
   effective_status e r = status r /\
   record_statusCode (error_record e) = status r) /\
  record_statusCode (error_record e) = effective_status e r.
Proof.
  intro Hr. unfold error_record, reported_status, effective_status, or_number.
  cbn [record_statusCode]. rewrite Hr.
  destruct (truthy_number (status r)); repeat split; discriminate.
Qed.

Lemma status_falls_back_to_error_witness :
  (truthy_number (status statusless_response) = false ->
   effective_status statusless_error statusless_response
   = statusCode statusless_error /\
   record_statusCode (error_record statusless_error)
   = statusCode statusless_error) /\
  (truthy_number (status statusless_response) = true ->
   effective_status statusless_error statusless_response
   = status statusless_response /\
   record_statusCode (error_record statusless_error)
   = status statusless_response) /\
  record_statusCode (error_record statusless_error)
  = effective_status statusless_error statusless_response.
Proof.
  apply (status_falls_back_to_error statusless_error statusless_response).
  reflexivity.
Defined.

Example classify_statusless :
  error_record statusless_error =
  {| record_error := lit "Authentication failed";
     record_details := invalid_api_key_details;
     record_statusCode := Some 401%Z |}.
Proof. reflexivity. Qed.

(** X10: an error without a response keeps its own message, with no details,
    whatever its [statusCode]; an error with a response never does: its
    message is one of the fixed texts or starts with "HTTP ". *)
Theorem classify_message_source (e : JsError) :
  (response e = None ->
   classify e = (message e, []) /\ fullError e = message e /\
   record_statusCode (error_record e) = statusCode e) /\
  (forall r, response e = Some r ->
     In (fst (classify e))
        [lit "Authentication failed"; lit "Access forbidden";
         lit "Rate limit exceeded"; lit "Invalid request";
         lit "Antijection API error"] \/
     startsWith (lit "HTTP ") (fst (classify e)) = true).
Proof.
  split.
  - intro Hr. unfold fullError, error_record, reported_status, classify.
    rewrite Hr. repeat split.
  - intros r Hr. unfold classify. rewrite Hr.
    destruct (effective_status e r) as [z|] eqn:Hz.
    + destruct (in_dec Z.eq_dec z listed_statuses) as [Hin|Hout].
      * left. unfold classify_status. rewrite Hz.
        simpl in Hin.
        destruct Hin as [<-|[<-|[<-|[<-|[<-|[<-|[<-|[]]]]]]]];
          simpl; tauto.
      * right. rewrite classify_status_unlisted.
        -- cbn [fst]. apply startsWith_app.
        -- intros z' Hz'. congruence.
    + right. rewrite classify_status_unlisted.
      * cbn [fst]. apply startsWith_app.
      * intros z' Hz'. congruence.
Qed.

(** ** Further properties: the item loop *)

Section ExecuteFurther.

Variable World : Type.
Variable Response : Type.
Variable httpRequest :
  World -> RequestOptions -> Completion Response * World.

Lemma world_after_calls c w i items :
  world_after httpRequest c w i items =
  calls httpRequest c w (valid_payloads i items).
Proof.
  revert w i. induction items as [|p rest IH]; intros w i; [reflexivity|].
  simpl. unfold try_item.
  destruct (build_payload i p) as [payload|e]; simpl; apply IH.
Qed.

Lemma valid_payloads_prompts i items :
  map payload_prompt (valid_payloads i items) =
  filter prompt_accepted (map prompt items).
Proof.
  revert i. induction items as [|p rest IH]; intro i; [reflexivity|].
  simpl.
  destruct (build_payload_cases i p)
    as [[Hw H] | [(Hw & Hgt & H) | [Hacc H]]]; rewrite H.
  - replace (prompt_accepted (prompt p)) with false; [apply IH|].
    unfold prompt_accepted. now rewrite Hw.
  - replace (prompt_accepted (prompt p)) with false; [apply IH|].
    unfold prompt_accepted. rewrite Hw. simpl. symmetry.
    apply Z.leb_gt. exact Hgt.
  - rewrite Hacc. simpl. now rewrite IH.
Qed.

Lemma valid_payloads_length i items :
  List.length (valid_payloads i items) <= List.length items.
Proof.
  revert i. induction items as [|p rest IH]; intro i; simpl; [lia|].
  specialize (IH (S i)). destruct (build_payload i p); simpl; lia.
Qed.

Lemma outcomes_first_failure (os : list (Completion Response)) :
  forallb is_normal os = true \/
  exists k e,
    nth_error os k = Some (Throw e) /\
    forall j, j < k -> exists r, nth_error os j = Some (Normal r).
Proof.
  induction os as [|o rest IH]; [now left|].
  destruct o as [r|e].
  - destruct IH as [Hall | (k & e & Hk & Hbefore)].
    + now left.
    + right. exists (S k), e. split; [exact Hk|].
      intros [|j] Hj; [now exists r|]. apply Hbefore. lia.
  - right. exists 0, e. split; [reflexivity|]. intros j Hj. lia.
Qed.

Lemma loop_all_normal flag c w i items returnData :
  forallb is_normal (item_outcomes httpRequest c w i items) = true ->
  loop httpRequest flag c w i items returnData =
  (Normal [returnData ++
           outputs_from i (item_outcomes httpRequest c w i items)],
   world_after httpRequest c w i items).
Proof.
  destruct flag; [intros _; apply loop_continue|].
  revert w i returnData.
  induction items as [|p rest IH]; intros w i returnData; simpl.
  - now rewrite app_nil_r.
  - destruct (try_item httpRequest c w i p) as [[r|e] w']; simpl.
    + intro H. rewrite (IH _ _ _ H), <- app_assoc. reflexivity.
    + discriminate.
Qed.

Lemma outputs_from_all_normal i (os : list (Completion Response)) :
  forallb is_normal os = true ->
  Forall (fun o => exists r, json o = ResponseJson r) (outputs_from i os).
Proof.
  revert i. induction os as [|o rest IH]; intros i H; simpl; [constructor|].
  simpl in H. apply andb_prop in H as [Ho Hrest].
  constructor; [|now apply IH].
  destruct o as [r|e]; [now exists r|discriminate].
Qed.

Lemma item_outcomes_validation c w i items k p e :
  nth_error items k = Some p ->
  build_payload (i + k) p = Throw e ->
  nth_error (item_outcomes httpRequest c w i items) k = Some (Throw e).
Proof.
  revert w i k. induction items as [|q rest IH]; intros w i k Hp He.
  - now destruct k.
  - simpl. destruct (try_item httpRequest c w i q) as [o w'] eqn:Ht.
    destruct k as [|k]; simpl in Hp |- *.
    + injection Hp as ->. rewrite Nat.add_0_r in He.
      unfold try_item in Ht. rewrite He in Ht. congruence.
    + apply IH; [exact Hp|]. rewrite Nat.add_succ_r in He. exact He.
Qed.

(** X11: in continue-on-failure mode the run never throws, whatever number of
    items fail: it returns one array with one output per item, output [j]
    being the response of item [j] or the error record of its error, paired
    with [j].  On an empty input both modes return one empty array and leave
    the service alone. *)
Theorem continue_on_fail_total c w items :
  exists out,
    fst (execute httpRequest true c w items) = Normal [out] /\
    List.length out = List.length items /\
    (forall j,
       nth_error out j =
       option_map (output_item j)
                  (nth_error (item_outcomes httpRequest c w 0 items) j)) /\
    (forall j o, nth_error out j = Some o -> pairedItem o = j) /\
    (forall flag, execute httpRequest flag c w [] = (Normal [[]], w)).
Proof.
  exists (outputs_from 0 (item_outcomes httpRequest c w 0 items)).
  unfold execute. rewrite loop_continue. cbn [fst app].
  split; [reflexivity|].
  split; [now rewrite outputs_from_length, item_outcomes_length|].
  split; [intro j; apply outputs_from_nth|].
  split; [|reflexivity].
  intros j o. rewrite outputs_from_nth.
  destruct (nth_error (item_outcomes httpRequest c w 0 items) j)
    as [[r|e]|]; simpl; intro H; [| |discriminate]; now injection H as <-.
Qed.

(** X12: the service is called once for each accepted item, in item order, with
    that item's payload, and never for a rejected item: in
    continue-on-failure mode the final state of the service is the one
    these calls leave, and the prompts sent are the accepted prompts, in
    order. *)
Theorem one_call_per_accepted_item c w items :
  snd (execute httpRequest true c w items) =
    calls httpRequest c w (valid_payloads 0 items) /\
  map payload_prompt (valid_payloads 0 items) =
    filter prompt_accepted (map prompt items) /\
  List.length (valid_payloads 0 items) <= List.length items /\
  (forallb prompt_accepted (map prompt items) = false ->
   List.length (valid_payloads 0 items) < List.length items).
Proof.
  unfold execute. rewrite loop_continue. cbn [snd].
  split; [apply world_after_calls|].
  split; [apply valid_payloads_prompts|].
  split; [apply valid_payloads_length|].
  intro H.
  rewrite <- (length_map payload_prompt), valid_payloads_prompts.
  rewrite <- (length_map prompt items).
  induction (map prompt items) as [|t ts IH]; [discriminate|].
  simpl in H |- *. pose proof (filter_length_le prompt_accepted ts).
  destruct (prompt_accepted t); simpl in H |- *; [|lia].
  specialize (IH H). lia.
Qed.

Lemma loop_raising_all_normal (OperationError : Type)
    (raise : jsstring -> nat -> OperationError) flag c w i items returnData :
  forallb is_normal (item_outcomes httpRequest c w i items) = true ->
  loop_raising httpRequest raise flag c w i items returnData =
  (Returned [returnData ++
             outputs_from i (item_outcomes httpRequest c w i items)],
   world_after httpRequest c w i items).
Proof.
  revert w i returnData.
  induction items as [|p rest IH]; intros w i returnData; simpl.
  - now rewrite app_nil_r.
  - destruct (try_item httpRequest c w i p) as [[r|e] w']; simpl.
    + intro H. rewrite (IH _ _ _ H), <- app_assoc. reflexivity.
    + discriminate.
Qed.

(** X13: without continue-on-failure a run ends in exactly one of two ways.
    Either every item succeeded, and the array returned holds the N
    responses in order.  Or some item fails, and for the first such item,
    the ones before it having succeeded, the run raises the operation error
    the library's constructor builds from that item's combined message and
    index, the later items not being visited.  An array that is returned
    has length N and never holds an error record.  This holds for every
    constructor. *)
Theorem abort_mode_outcome (OperationError : Type)
    (raise : jsstring -> nat -> OperationError) c w items :
  ((forallb is_normal (item_outcomes httpRequest c w 0 items) = true /\
    execute_raising httpRequest raise false c w items =
      (Returned [outputs_from 0 (item_outcomes httpRequest c w 0 items)],
       world_after httpRequest c w 0 items))
   \/
   (exists k e,
      k < List.length items /\
      nth_error (item_outcomes httpRequest c w 0 items) k = Some (Throw e) /\
      (forall j, j < k ->
         exists r, nth_error (item_outcomes httpRequest c w 0 items) j
                   = Some (Normal r)) /\
      execute_raising httpRequest raise false c w items =
        (Raised (raise (fullError e) k),
         world_after httpRequest c w 0 (firstn (S k) items)))) /\
  (forall out,
     fst (execute_raising httpRequest raise false c w items)
     = Returned [out] ->
     forallb is_normal (item_outcomes httpRequest c w 0 items) = true /\
     List.length out = List.length items /\
     Forall (fun o => exists r, json o = ResponseJson r) out).
Proof.
  unfold execute_raising.
  destruct (outcomes_first_failure (item_outcomes httpRequest c w 0 items))
    as [Hall | (k & e & Hk & Hbefore)].
  - rewrite (loop_raising_all_normal OperationError raise false c w 0 items
               [] Hall).
    cbn [app fst].
    split; [left; now split|].
    intros out [= <-]. split; [exact Hall|].
    split; [now rewrite outputs_from_length, item_outcomes_length|].
    now apply outputs_from_all_normal.
  - rewrite (loop_raising_abort World Response httpRequest OperationError
               raise c w 0 items [] k e Hk Hbefore).
    cbn [fst]. split; [|discriminate].
    right. exists k, e. split; [|now repeat split].
    rewrite <- (item_outcomes_length World Response httpRequest c w 0 items).
    apply nth_error_Some. congruence.
Qed.

(** X14: when no item fails, the continue-on-failure flag makes no difference:
    both modes return the same array and leave the service in the same
    state. *)
Theorem modes_agree_without_failure c w items :
  forallb is_normal (item_outcomes httpRequest c w 0 items) = true ->
  execute httpRequest false c w items = execute httpRequest true c w items.
Proof.
  intro H. unfold execute.
  now rewrite (loop_all_normal false c w 0 items [] H), loop_continue.
Qed.

(** X15: a validation failure is reported whatever the service does: if item [k]
    is rejected, its outcome is that error; in continue-on-failure mode
    output [k] is the record of the error's message, with no details and no
    status; and when the items before it succeeded, the other mode throws
    that very error. *)
Theorem rejected_item_is_reported c w items k p e :
  nth_error items k = Some p ->
  build_payload k p = Throw e ->
  nth_error (item_outcomes httpRequest c w 0 items) k = Some (Throw e) /\
  (exists out,
     fst (execute httpRequest true c w items) = Normal [out] /\
     nth_error out k =
       Some {| json := ErrorJson {| record_error := message e;
                                    record_details := [];
                                    record_statusCode := None |};
               pairedItem := k |}) /\
  ((forall j, j < k ->
      exists r,
        nth_error (item_outcomes httpRequest c w 0 items) j
        = Some (Normal r)) ->
   fst (execute httpRequest false c w items) = Throw e).
Proof.
  intros Hp He.
  assert (Hk : nth_error (item_outcomes httpRequest c w 0 items) k
               = Some (Throw e))
    by (now apply (item_outcomes_validation c w 0 items k p e)).
  assert (Hshape : e = NodeOperationError (message e) k /\
                   classify e = (message e, []) /\
                   reported_status e = None).
  { destruct (build_payload_cases k p)
      as [[_ H] | [(_ & _ & H) | [_ H]]];
      rewrite H in He; [| |discriminate]; injection He as <-; now repeat split. }
  destruct Hshape as (Hrec & Hcl & Hst).
  split; [exact Hk|]. split.
  - exists (outputs_from 0 (item_outcomes httpRequest c w 0 items)).
    unfold execute. rewrite loop_continue. cbn [fst app].
    split; [reflexivity|].
    rewrite outputs_from_nth, Hk. cbn [option_map output_item Nat.add].
    unfold error_record. now rewrite Hcl, Hst.
  - intro Hbefore. unfold execute.
    rewrite (loop_abort World Response httpRequest c w 0 items [] k e Hk Hbefore).
    cbn [fst Nat.add]. unfold fullError. rewrite Hcl. cbn [truthy_string].
    now rewrite <- Hrec.
Qed.

(** X16: for an accepted item exactly one request is made: a POST to the
    detection URL, with the JSON flag, the API key as a bearer token, and a
    body that holds the item's prompt and method unchanged; the outcome of
    the item is whatever the service answers. *)
Theorem accepted_item_request c w i p :
  prompt_accepted (prompt p) = true ->
  try_item httpRequest c w i p =
  httpRequest w
    {| method := lit "POST";
       url := without_one_trailing_slash (baseUrl c) ++ lit "/v1/detect";
       body := {| payload_prompt := prompt p;
                  detection_method := detectionMethod p;
                  rule_settings :=
                    option_map build_rule_settings (ruleSettings p) |};
       json_flag := true;
       headers :=
         [ (lit "Authorization", lit "Bearer " ++ apiKey c);
           (lit "Content-Type", lit "application/json") ] |} /\
  (forall e, build_payload i p = Throw e -> False).
Proof.
  intro Hacc.
  destruct (build_payload_cases i p)
    as [[Hw H] | [(Hw & Hgt & H) | [_ H]]].
  - apply prompt_accepted_spec in Hacc. destruct Hacc. congruence.
  - apply prompt_accepted_spec in Hacc. lia.
  - unfold try_item. rewrite H. split; [|discriminate].
    unfold request_options, detect_url.
    now rewrite replace_trailing_slash_spec.
Qed.

End ExecuteFurther.

(** *** Further runs against the counting service *)

Lemma modes_agree_without_failure_witness :
  execute counting_service false sample_credentials 0 sample_items_valid
  = execute counting_service true sample_credentials 0 sample_items_valid.
Proof.
  apply (modes_agree_without_failure nat jsstring counting_service
           sample_credentials 0 sample_items_valid).
  reflexivity.
Defined.

Lemma rejected_item_is_reported_witness :
  nth_error
    (item_outcomes counting_service sample_credentials 0 0 sample_items_blank)
    1 = Some (Throw (NodeOperationError empty_prompt_message 1)) /\
  (exists out,
     fst (execute counting_service true sample_credentials 0
            sample_items_blank) = Normal [out] /\
     nth_error out 1 =
       Some {| json :=
                 ErrorJson
                   {| record_error :=
                        message (NodeOperationError empty_prompt_message 1);
                      record_details := [];
                      record_statusCode := None |};
               pairedItem := 1 |}) /\
  ((forall j, j < 1 ->
      exists r,
        nth_error
          (item_outcomes counting_service sample_credentials 0 0
             sample_items_blank) j = Some (Normal r)) ->
   fst (execute counting_service false sample_credentials 0
          sample_items_blank)
   = Throw (NodeOperationError empty_prompt_message 1)).
Proof.
  apply (rejected_item_is_reported nat jsstring counting_service
           sample_credentials 0 sample_items_blank 1 (item_of (lit "  "))
           (NodeOperationError empty_prompt_message 1)).
  - reflexivity.
  - reflexivity.
Defined.

Lemma accepted_item_request_witness :
  try_item counting_service sample_credentials 0 0 (item_of (lit "one")) =
  counting_service 0
    {| method := lit "POST";
       url := without_one_trailing_slash (baseUrl sample_credentials) ++
              lit "/v1/detect";
       body := {| payload_prompt := prompt (item_of (lit "one"));
                  detection_method := detectionMethod (item_of (lit "one"));
                  rule_settings :=
                    option_map build_rule_settings
                      (ruleSettings (item_of (lit "one"))) |};
       json_flag := true;
       headers :=
         [ (lit "Authorization", lit "Bearer " ++ apiKey sample_credentials);
           (lit "Content-Type", lit "application/json") ] |} /\
  (forall e, build_payload 0 (item_of (lit "one")) = Throw e -> False).
Proof.
  apply (accepted_item_request nat jsstring counting_service
           sample_credentials 0 0 (item_of (lit "one"))).
  reflexivity.
Defined.

Example calls_counted :
  snd (execute counting_service true sample_credentials 0 sample_items_blank)
  = 2 /\
  snd (execute counting_service true sample_credentials 0 sample_items) = 3 /\
  snd (execute counting_service false sample_credentials 0 sample_items) = 2.
Proof. repeat split. Qed.

(** ** Further properties: the declared options *)

Lemma jsstring_eqb_eq (a b : jsstring) : jsstring_eqb a b = true <-> a = b.
Proof.
  revert b. induction a as [|x a IH]; intros [|y b]; simpl;
    try (split; [discriminate|discriminate]); [tauto|].
  unfold code_eqb. rewrite andb_true_iff, N.eqb_eq, IH.
  split; [intros [-> ->]; reflexivity|intros [= -> ->]; tauto].
Qed.

Lemma distinct_values_NoDup (l : list jsstring) :
  distinct_values l = true -> NoDup l.
Proof.
  induction l as [|x rest IH]; simpl; [constructor|].
  intro H. apply andb_prop in H as [Hx Hrest].
  constructor; [|now apply IH].
  intro Hin. apply negb_true_iff in Hx.
  assert (existsb (jsstring_eqb x) rest = true); [|congruence].
  apply existsb_exists. exists x. split; [exact Hin|].
  now apply jsstring_eqb_eq.
Qed.

(** X17: the three methods of the model are the declared option values, one
    each: distinct methods give distinct [detection_method] strings, every
    declared value is a method's, and the declared default and the method of
    the credential test are among them.  The declared category values are
    pairwise distinct as well. *)
Theorem declared_options_consistent :
  (forall m m', method_value m = method_value m' -> m = m') /\
  (forall s, In s detectionMethod_options <-> exists m, method_value m = s) /\
  In detectionMethod_default detectionMethod_options /\
  In (detection_method credential_test_body) detectionMethod_options /\
  NoDup detectionMethod_options /\
  NoDup disabledCategories_options.
Proof.
  split.
  { intros [] [] H; try reflexivity; vm_compute in H; discriminate H. }
  split.
  { intro s. split.
    - intros [<-|[<-|[<-|[]]]];
        [exists INJECTION_GUARD | exists INJECTION_GUARD_MULTI
        | exists SAFETY_GUARD]; reflexivity.
    - intros [[] <-]; simpl; tauto. }
  split; [simpl; tauto|]. split; [simpl; tauto|].
  split; apply distinct_values_NoDup; vm_compute; reflexivity.
Qed.
